(** * USTHB ICT Projects: the SQLite-backed catalog service

    A shallow embedding of the request handlers of [routes/projects.js]
    and [routes/auth.js] over the schema of [db/database.js].

    Conventions of the model
    - a table is the list of its rows in rowid order (oldest first), so
      that [.get()] (first matching row) and the nested-loop joins read
      as list operations;
    - row ids and foreign keys are [Z]; a path parameter [:id] is the
      integer it denotes (a parameter that denotes no integer matches no
      row, like an id that is not in the table);
    - a JSON number is a rational [Q] (every finite double is one, and
      the comparisons with 1 and 5 agree); a body field that is absent,
      [undefined] or [null] is [None]; the [rating] field is a number or
      absent, the text fields are strings or absent;
    - foreign keys are enforced, as better-sqlite3 opens its databases;
    - a string is a sequence of UTF-16 code units, one [ascii] per unit;
    - [CURRENT_TIMESTAMP] is an explicit argument [now] of each handler;
    - a statement that violates a constraint throws; the handler's
      [catch] turns it into a 500 response and the statements already
      executed stay in effect (there is no transaction in the source). *)

From Stdlib Require Import ZArith QArith List String Ascii Bool Lia.
Import ListNotations.

Local Open Scope string_scope.
Local Open Scope Z_scope.

(** ** Schema ([db/database.js]) *)

Record user := mkUser {
  u_id : Z;
  u_username : string;
  u_email : string;
  u_password : string;
  u_full_name : option string;
  u_profile_picture : option string;
  u_bio : option string;
  u_created_at : Z
}.

Record project := mkProject {
  p_id : Z;
  p_title : string;
  p_description : string;
  p_author_id : Z;
  p_section : option string;
  p_group_number : option string;
  p_full_name : option string;
  p_matricule : option string;
  p_created_at : Z
}.

Record review := mkReview {
  r_id : Z;
  r_project_id : Z;
  r_reviewer_id : Z;
  r_rating : Q;
  r_comment : option string;
  r_created_at : Z
}.

Record project_file := mkFile {
  f_id : Z;
  f_project_id : Z;
  f_file_path : string;
  f_uploaded_at : Z
}.

(** The database: four tables and, for each, the AUTOINCREMENT counter
    (the largest rowid handed out so far). *)
Record database := mkDb {
  users : list user;
  projects : list project;
  reviews : list review;
  project_files : list project_file;
  seq_users : Z;
  seq_projects : Z;
  seq_reviews : Z;
  seq_files : Z
}.

Definition empty_db : database := mkDb [] [] [] [] 0 0 0 0.

Definition set_users (us : list user) (n : Z) (db : database) : database :=
  mkDb us (projects db) (reviews db) (project_files db)
       n (seq_projects db) (seq_reviews db) (seq_files db).

Definition set_projects (ps : list project) (n : Z) (db : database) : database :=
  mkDb (users db) ps (reviews db) (project_files db)
       (seq_users db) n (seq_reviews db) (seq_files db).

Definition set_reviews (rs : list review) (n : Z) (db : database) : database :=
  mkDb (users db) (projects db) rs (project_files db)
       (seq_users db) (seq_projects db) n (seq_files db).

Definition set_files (fs : list project_file) (n : Z) (db : database) : database :=
  mkDb (users db) (projects db) (reviews db) fs
       (seq_users db) (seq_projects db) (seq_reviews db) n.

(** ** Responses *)

Record response := mkResp { status : Z; message : string }.

(** ** Queries shared by the handlers *)

(** [SELECT * FROM projects WHERE id = ?] with [.get()]. *)
Definition select_project (db : database) (pid : Z) : option project :=
  find (fun p => p_id p =? pid) (projects db).

(** [SELECT * FROM users WHERE id = ?] with [.get()]. *)
Definition select_user (db : database) (uid : Z) : option user :=
  find (fun u => u_id u =? uid) (users db).

Definition review_of (pid uid : Z) (r : review) : bool :=
  (r_project_id r =? pid) && (r_reviewer_id r =? uid).

(** [SELECT * FROM reviews WHERE project_id = ? AND reviewer_id = ?]
    with [.get()]. *)
Definition select_review (db : database) (pid uid : Z) : option review :=
  find (review_of pid uid) (reviews db).

(** ** Constraints of the [reviews] table *)

Definition has_user (db : database) (uid : Z) : bool :=
  existsb (fun u => u_id u =? uid) (users db).

Definition has_project (db : database) (pid : Z) : bool :=
  existsb (fun p => p_id p =? pid) (projects db).

(** [CHECK(rating >= 1 AND rating <= 5)]. *)
Definition check_rating (q : Q) : bool := Qle_bool 1 q && Qle_bool q 5.

(** [UNIQUE(project_id, reviewer_id)] seen from a row about to be
    written: no other row carries the pair. *)
Definition pair_free (rs : list review) (pid uid : Z) : bool :=
  negb (existsb (review_of pid uid) rs).

(** [INSERT INTO reviews (project_id, reviewer_id, rating, comment)
    VALUES (?, ?, ?, ?)]: the CHECK, the UNIQUE pair and the two foreign
    keys are enforced; [None] is the thrown constraint error.  The bound
    number is stored with its value: the INTEGER affinity of the column
    turns a REAL into an INTEGER only when that loses nothing, it does
    not round and does not refuse. *)
Definition insert_review (db : database) (now pid uid : Z) (q : Q)
    (c : option string) : option database :=
  if check_rating q
     && pair_free (reviews db) pid uid
     && has_project db pid
     && has_user db uid
  then
    let rid := seq_reviews db + 1 in
    Some (set_reviews (reviews db ++ [mkReview rid pid uid q c now]) rid db)
  else None.

Definition set_rating_comment (q : Q) (c : option string) (rid : Z)
    (r : review) : review :=
  if r_id r =? rid
  then mkReview (r_id r) (r_project_id r) (r_reviewer_id r) q c (r_created_at r)
  else r.

(** [UPDATE reviews SET rating = ?, comment = ? WHERE id = ?]. *)
Definition update_review (db : database) (q : Q) (c : option string)
    (rid : Z) : option database :=
  if check_rating q
  then Some (set_reviews (map (set_rating_comment q c rid) (reviews db))
                         (seq_reviews db) db)
  else None.

(** ** [router.post("/:id/reviews")] *)

(** [!rating || rating < 1 || rating > 5] for a rating that is absent or
    a number; the number 0 is falsy. *)
Definition rating_rejected (rating : option Q) : bool :=
  match rating with
  | None => true
  | Some q => Qeq_bool q 0 || negb (Qle_bool 1 q) || negb (Qle_bool q 5)
  end.

(** [x || null] for an optional string: an absent or empty value becomes
    NULL. *)
Definition or_null (x : option string) : option string :=
  match x with
  | Some "" => None
  | Some s => Some s
  | None => None
  end.

Definition post_review (db : database) (now user_id project_id : Z)
    (rating : option Q) (comment : option string) : response * database :=
  match rating with
  | None => (mkResp 400 "Rating must be between 1 and 5", db)
  | Some q =>
    if rating_rejected rating
    then (mkResp 400 "Rating must be between 1 and 5", db)
    else
      match select_project db project_id with
      | None => (mkResp 404 "Project not found", db)
      | Some _ =>
        match select_review db project_id user_id with
        | Some existingReview =>
          match update_review db q (or_null comment)
                              (r_id existingReview) with
          | Some db' => (mkResp 200 "Review updated successfully", db')
          | None => (mkResp 500 "Failed to add review", db)
          end
        | None =>
          match insert_review db now project_id user_id q
                              (or_null comment) with
          | Some db' => (mkResp 201 "Review added successfully", db')
          | None => (mkResp 500 "Failed to add review", db)
          end
        end
      end
  end.

(** ** The aggregate query of [router.get("/")] and [router.get("/:id")] *)

(** Truthiness of an optional string ([if (section)], [x || null]). *)
Definition truthy (s : option string) : bool :=
  match s with
  | Some "" => false
  | Some _ => true
  | None => false
  end.

(** The right-hand side of a LEFT JOIN for one left row: the matching
    rows, or a single all-NULL row when there is none. *)
Definition left_join {A : Type} (matching : list A) : list (option A) :=
  match matching with
  | [] => [None]
  | _ => map Some matching
  end.

Definition files_of (db : database) (pid : Z) : list project_file :=
  filter (fun f => f_project_id f =? pid) (project_files db).

Definition reviews_of (db : database) (pid : Z) : list review :=
  filter (fun r => r_project_id r =? pid) (reviews db).

Definition authors_of (db : database) (p : project) : list user :=
  filter (fun u => u_id u =? p_author_id p) (users db).

(** One row of
    [projects JOIN users LEFT JOIN project_files LEFT JOIN reviews]. *)
Record joined_row := mkJoined {
  j_project : project;
  j_author : user;
  j_file : option project_file;
  j_review : option review
}.

(** The rows the join produces for project [p]: this is the group of [p]
    under [GROUP BY projects.id]. *)
Definition group_of (db : database) (p : project) : list joined_row :=
  flat_map (fun u =>
    flat_map (fun f =>
      map (fun r => mkJoined p u f r) (left_join (reviews_of db (p_id p))))
      (left_join (files_of db (p_id p))))
    (authors_of db p).

(** The non-NULL values of [reviews.rating] in a group. *)
Definition ratings_in (g : list joined_row) : list Q :=
  flat_map (fun j => match j_review j with
                     | Some r => [r_rating r]
                     | None => []
                     end) g.

Definition Qsum (l : list Q) : Q := fold_right Qplus 0%Q l.

(** [AVG(x)]: NULL over no value, else the sum over the count. *)
Definition sql_avg (l : list Q) : option Q :=
  match l with
  | [] => None
  | _ => Some (Qsum l / inject_Z (Z.of_nat (List.length l)))%Q
  end.

(** [COALESCE(x, 0)]. *)
Definition coalesce0 (x : option Q) : Q :=
  match x with
  | Some q => q
  | None => 0%Q
  end.

(** [COUNT(reviews.id)]: the rows of the group whose review is not NULL. *)
Definition count_reviews (g : list joined_row) : Z :=
  Z.of_nat (List.length (filter (fun j => match j_review j with
                                     | Some _ => true
                                     | None => false
                                     end) g)).

(** The JSON object returned for one project. *)
Record project_view := mkView {
  v_id : Z;
  v_title : string;
  v_description : string;
  v_section : option string;
  v_group_number : option string;
  v_full_name : option string;
  v_matricule : option string;
  v_created_at : Z;
  v_author_name : string;
  v_author_id : Z;
  v_file_path : option string;
  v_avg_rating : Q;
  v_review_count : Z
}.

(** Stable insertion sort for [ORDER BY projects.created_at DESC]. *)
Fixpoint insert_desc (p : project) (l : list project) : list project :=
  match l with
  | [] => [p]
  | x :: xs => if p_created_at x <? p_created_at p
               then p :: l
               else x :: insert_desc p xs
  end.

Definition order_by_created_desc (l : list project) : list project :=
  fold_right insert_desc [] l.

Definition opt_string_eqb (a : option string) (b : string) : bool :=
  match a with
  | Some s => String.eqb s b
  | None => false
  end.

(** The [WHERE] clause built from the query string: a condition is added
    only for a truthy parameter, and the conditions are joined by AND. *)
Definition where_clause (section group : option string) (p : project) : bool :=
  (if truthy section
   then opt_string_eqb (p_section p) (match section with Some s => s | None => "" end)
   else true)
  &&
  (if truthy group
   then opt_string_eqb (p_group_number p) (match group with Some s => s | None => "" end)
   else true).

Section Aggregate.

(** [project_files.file_path] is a bare column of an aggregate query:
    SQLite takes it from one row of the group and the query does not
    say which ([arbitrary_row first rest] is that row). *)
Variable arbitrary_row : joined_row -> list joined_row -> joined_row.

(** The output row of one group; an empty group (no author row for the
    inner join) gives no output. *)
Definition aggregate (g : list joined_row) : option project_view :=
  match g with
  | [] => None
  | j :: js =>
    let b := arbitrary_row j js in
    let p := j_project b in
    Some (mkView (p_id p) (p_title p) (p_description p) (p_section p)
                 (p_group_number p) (p_full_name p) (p_matricule p)
                 (p_created_at p)
                 (u_username (j_author b)) (u_id (j_author b))
                 (option_map f_file_path (j_file b))
                 (coalesce0 (sql_avg (ratings_in g)))
                 (count_reviews g))
  end.

Definition option_to_list {A : Type} (o : option A) : list A :=
  match o with
  | Some a => [a]
  | None => []
  end.

(** [router.get("/")]: the [projects] array of the response. *)
Definition get_projects (db : database) (section group : option string)
    : list project_view :=
  flat_map (fun p => option_to_list (aggregate (group_of db p)))
    (order_by_created_desc (filter (where_clause section group) (projects db))).

(** [router.get("/:id")]: the project, or the 404 response. *)
Definition get_project (db : database) (id : Z) : response + project_view :=
  match flat_map (fun p => option_to_list (aggregate (group_of db p)))
                 (filter (fun p => p_id p =? id) (projects db)) with
  | [] => inl (mkResp 404 "Project not found")
  | v :: _ => inr v
  end.

End Aggregate.

(** ** Statements on [projects] and [project_files] *)

(** [INSERT INTO projects (title, description, author_id, section,
    group_number, full_name, matricule) VALUES (...)]; the foreign key on
    [author_id] is enforced.  Returns the new state and
    [lastInsertRowid]. *)
Definition insert_project (db : database) (now : Z) (title description : string)
    (author : Z) (section group full_name matricule : option string)
    : option (database * Z) :=
  if has_user db author
  then
    let pid := seq_projects db + 1 in
    Some (set_projects
            (projects db ++ [mkProject pid title description author section
                                       group full_name matricule now])
            pid db, pid)
  else None.

(** [INSERT INTO project_files (project_id, file_path) VALUES (?, ?)]. *)
Definition insert_file (db : database) (now pid : Z) (path : string)
    : option database :=
  if has_project db pid
  then
    let fid := seq_files db + 1 in
    Some (set_files (project_files db ++ [mkFile fid pid path now]) fid db)
  else None.

(** [UPDATE projects SET title = ?, description = ?, section = ?,
    group_number = ?, full_name = ?, matricule = ? WHERE id = ?]: an
    absent field is bound as NULL, which [title] and [description]
    (NOT NULL) refuse. *)
Definition update_project (db : database) (title description : option string)
    (section group full_name matricule : option string) (pid : Z)
    : option database :=
  if has_project db pid
  then
    match title, description with
    | Some t, Some d =>
      Some (set_projects
              (map (fun p => if p_id p =? pid
                             then mkProject (p_id p) t d (p_author_id p) section
                                            group full_name matricule
                                            (p_created_at p)
                             else p) (projects db))
              (seq_projects db) db)
    | _, _ => None
    end
  else Some db.

(** [DELETE FROM reviews WHERE project_id = ?]. *)
Definition delete_reviews (db : database) (pid : Z) : database :=
  set_reviews (filter (fun r => negb (r_project_id r =? pid)) (reviews db))
              (seq_reviews db) db.

(** [DELETE FROM project_files WHERE project_id = ?]. *)
Definition delete_files (db : database) (pid : Z) : database :=
  set_files (filter (fun f => negb (f_project_id f =? pid)) (project_files db))
            (seq_files db) db.

(** [DELETE FROM projects WHERE id = ?]: refused by the foreign keys of
    [reviews] and [project_files] while a row of either still references
    the project. *)
Definition delete_project_row (db : database) (pid : Z) : option database :=
  if has_project db pid
     && (existsb (fun r => r_project_id r =? pid) (reviews db)
         || existsb (fun f => f_project_id f =? pid) (project_files db))
  then None
  else Some (set_projects (filter (fun p => negb (p_id p =? pid)) (projects db))
                          (seq_projects db) db).

(** ** [router.post("/")] *)

Definition post_project (db : database) (now user_id : Z)
    (title description section group_number full_name matricule : option string)
    (file : option string) : response * database :=
  match title, description with
  | Some t, Some d =>
    if negb (truthy title) || negb (truthy description)
    then (mkResp 400 "Title and description are required", db)
    else if Z.of_nat (String.length t) <? 3
    then (mkResp 400 "Title must be at least 3 characters", db)
    else if Z.of_nat (String.length d) <? 10
    then (mkResp 400 "Description must be at least 10 characters", db)
    else
      match insert_project db now t d user_id (or_null section)
                           (or_null group_number) (or_null full_name)
                           (or_null matricule) with
      | None => (mkResp 500 "Failed to create project", db)
      | Some (db1, projectId) =>
        match file with
        | Some filename =>
          match insert_file db1 now projectId ("/uploads/" ++ filename) with
          | Some db2 => (mkResp 201 "Project created successfully", db2)
          | None => (mkResp 500 "Failed to create project", db1)
          end
        | None => (mkResp 201 "Project created successfully", db1)
        end
      end
  | _, _ => (mkResp 400 "Title and description are required", db)
  end.

(** ** [router.put("/:id")] *)

Definition put_project (db : database) (user_id projectId : Z)
    (title description section group_number full_name matricule : option string)
    : response * database :=
  match select_project db projectId with
  | None => (mkResp 404 "Project not found", db)
  | Some project =>
    if negb (p_author_id project =? user_id)
    then (mkResp 403 "You can only edit your own projects", db)
    else
      match update_project db title description section group_number
                           full_name matricule projectId with
      | Some db' => (mkResp 200 "Project updated successfully", db')
      | None => (mkResp 500 "Failed to update project", db)
      end
  end.

(** ** [router.delete("/:id")] *)

Definition delete_project (db : database) (user_id projectId : Z)
    : response * database :=
  match select_project db projectId with
  | None => (mkResp 404 "Project not found", db)
  | Some project =>
    if negb (p_author_id project =? user_id)
    then (mkResp 403 "You can only delete your own projects", db)
    else
      let db1 := delete_reviews db projectId in
      let db2 := delete_files db1 projectId in
      match delete_project_row db2 projectId with
      | Some db3 => (mkResp 200 "Project deleted successfully", db3)
      | None => (mkResp 500 "Failed to delete project", db2)
      end
  end.

(** ** [router.put("/me")] of the users routes *)

(** [a || b] where [b] is a column that may be NULL. *)
Definition or_else (a b : option string) : option string :=
  if truthy a then a else b.

Definition put_users_me (db : database) (user_id : Z)
    (username full_name bio : option string) (file : option string)
    : response * database :=
  match select_user db user_id with
  | None => (mkResp 404 "User not found", db)
  | Some currentUser =>
    if truthy username
       && negb (opt_string_eqb username (u_username currentUser))
       && existsb (fun u => opt_string_eqb username (u_username u)
                            && negb (u_id u =? user_id)) (users db)
    then (mkResp 400 "Username already taken", db)
    else
      let profilePicture :=
        match file with
        | Some filename => Some ("/uploads/avatars/" ++ filename)
        | None => u_profile_picture currentUser
        end in
      let name := if truthy username
                  then match username with
                       | Some s => s
                       | None => u_username currentUser
                       end
                  else u_username currentUser in
      (mkResp 200 "Profile updated successfully",
       set_users
         (map (fun u => if u_id u =? user_id
                        then mkUser (u_id u) name (u_email u) (u_password u)
                                    (or_else full_name (u_full_name currentUser))
                                    profilePicture
                                    (or_else bio (u_bio currentUser))
                                    (u_created_at u)
                        else u) (users db))
         (seq_users db) db)
  end.

(** ** Regular expressions ([emailRegex.test]) *)

Inductive regex : Type :=
| Void : regex
| Eps : regex
| Lit : ascii -> regex
| NoneOf : (ascii -> bool) -> regex
| Cat : regex -> regex -> regex
| Alt : regex -> regex -> regex
| Star : regex -> regex.

Definition Plus (r : regex) : regex := Cat r (Star r).

Fixpoint nullable (r : regex) : bool :=
  match r with
  | Void => false
  | Eps => true
  | Lit _ => false
  | NoneOf _ => false
  | Cat a b => nullable a && nullable b
  | Alt a b => nullable a || nullable b
  | Star _ => true
  end.

(** Brzozowski derivative of [r] by the code unit [c]. *)
Fixpoint deriv (c : ascii) (r : regex) : regex :=
  match r with
  | Void => Void
  | Eps => Void
  | Lit d => if Ascii.eqb c d then Eps else Void
  | NoneOf cls => if cls c then Void else Eps
  | Cat a b => if nullable a
               then Alt (Cat (deriv c a) b) (deriv c b)
               else Cat (deriv c a) b
  | Alt a b => Alt (deriv c a) (deriv c b)
  | Star a => Cat (deriv c a) (Star a)
  end.

(** [^r$] against the whole string. *)
Fixpoint regex_test (r : regex) (s : string) : bool :=
  match s with
  | EmptyString => nullable r
  | String c s' => regex_test (deriv c r) s'
  end.

(** The class [\s@] on code units below 256: TAB, LF, VT, FF, CR, SPACE,
    NBSP and the at sign. *)
Definition space_or_at (c : ascii) : bool :=
  let n := nat_of_ascii c in
  (Nat.eqb n 9 || Nat.eqb n 10 || Nat.eqb n 11 || Nat.eqb n 12
   || Nat.eqb n 13 || Nat.eqb n 32 || Nat.eqb n 160 || Nat.eqb n 64)%bool.

(** [/^[^\s@]+@[^\s@]+\.[^\s@]+$/]. *)
Definition emailRegex : regex :=
  Cat (Plus (NoneOf space_or_at))
      (Cat (Lit "@")
           (Cat (Plus (NoneOf space_or_at))
                (Cat (Lit ".") (Plus (NoneOf space_or_at))))).

(** ** [routes/auth.js] *)

(** The identity carried by a token and echoed in the response. *)
Record identity := mkIdentity {
  i_id : Z;
  i_username : string;
  i_email : string
}.

Record auth_response := mkAuth {
  a_status : Z;
  a_message : string;
  a_token : option string;
  a_user : option identity
}.

Definition auth_error (code : Z) (msg : string) : auth_response :=
  mkAuth code msg None None.

(** [SELECT id FROM users WHERE email = ? OR username = ?] with [.get()]. *)
Definition select_user_by (db : database) (email username : string)
    : option user :=
  find (fun u => String.eqb (u_email u) email
                 || String.eqb (u_username u) username) (users db).

(** [INSERT INTO users (username, email, password) VALUES (?, ?, ?)] under
    the two UNIQUE constraints. *)
Definition insert_user (db : database) (now : Z)
    (username email hashedPassword : string) : option (database * Z) :=
  if existsb (fun u => String.eqb (u_username u) username
                       || String.eqb (u_email u) email) (users db)
  then None
  else
    let uid := seq_users db + 1 in
    Some (set_users (users db ++ [mkUser uid username email hashedPassword
                                         None None None now])
                    uid db, uid).

Definition str (s : option string) : string :=
  match s with
  | Some x => x
  | None => ""
  end.

(** [authHeader.split(' ')]. *)
Fixpoint split_space (cur : string) (s : string) : list string :=
  match s with
  | EmptyString => [cur]
  | String c s' =>
    if Ascii.eqb c " "
    then cur :: split_space "" s'
    else split_space (cur ++ String c "") s'
  end.

(** [authHeader && authHeader.split(' ')[1]], as an optional string. *)
Definition bearer_token (authHeader : option string) : option string :=
  match authHeader with
  | Some h => if truthy authHeader then nth_error (split_space "" h) 1 else None
  | None => None
  end.

Section Auth.

(** The two libraries the routes call; [jwt_verify] returns the decoded
    identity, or [None] where [jwt.verify] throws (bad signature,
    malformed or expired token). *)
Variable bcrypt_hash : string -> string.
Variable bcrypt_compare : string -> string -> bool.
Variable jwt_sign : identity -> Z -> string.
Variable jwt_verify : string -> Z -> option identity.

(** [router.post("/register")]. *)
Definition post_register (db : database) (now : Z)
    (username email password : option string) : auth_response * database :=
  if negb (truthy username) || negb (truthy email) || negb (truthy password)
  then (auth_error 400 "Username, email, and password are required", db)
  else if Z.of_nat (String.length (str username)) <? 3
  then (auth_error 400 "Username must be at least 3 characters", db)
  else if Z.of_nat (String.length (str password)) <? 6
  then (auth_error 400 "Password must be at least 6 characters", db)
  else if negb (regex_test emailRegex (str email))
  then (auth_error 400 "Invalid email format", db)
  else
    match select_user_by db (str email) (str username) with
    | Some _ => (auth_error 409 "Username or email already exists", db)
    | None =>
      let hashedPassword := bcrypt_hash (str password) in
      match insert_user db now (str username) (str email) hashedPassword with
      | None => (auth_error 500 "Registration failed. Please try again.", db)
      | Some (db', uid) =>
        let who := mkIdentity uid (str username) (str email) in
        (mkAuth 201 "Registration successful"
                (Some (jwt_sign who now)) (Some who), db')
      end
    end.

(** [router.post("/login")]; the handler does not write. *)
Definition post_login (db : database) (now : Z)
    (email password : option string) : auth_response :=
  if negb (truthy email) || negb (truthy password)
  then auth_error 400 "Email and password are required"
  else
    match select_user_by db (str email) (str email) with
    | None => auth_error 401 "Invalid email/username or password"
    | Some user =>
      if negb (bcrypt_compare (str password) (u_password user))
      then auth_error 401 "Invalid email/username or password"
      else
        let who := mkIdentity (u_id user) (u_username user) (u_email user) in
        mkAuth 200 "Login successful" (Some (jwt_sign who now)) (Some who)
    end.

(** [router.get("/me")]: the status and, on success, the user row. *)
Definition get_me (db : database) (now : Z) (authHeader : option string)
    : response + user :=
  let token := bearer_token authHeader in
  if negb (truthy token)
  then inl (mkResp 401 "No token provided")
  else
    match jwt_verify (str token) now with
    | None => inl (mkResp 403 "Invalid token")
    | Some decoded =>
      match select_user db (i_id decoded) with
      | None => inl (mkResp 404 "User not found")
      | Some user => inr user
      end
    end.

End Auth.

(** ** Sequences of requests *)

(** One review submission: the clock reading and the body fields. *)
Record submission := mkSubmission {
  s_now : Z;
  s_rating : option Q;
  s_comment : option string
}.

Definition submit (uid pid : Z) (db : database) (s : submission) : database :=
  snd (post_review db (s_now s) uid pid (s_rating s) (s_comment s)).

(** The submissions of one reviewer for one project, oldest first. *)
Definition submit_all (uid pid : Z) (db : database) (l : list submission)
    : database :=
  fold_left (submit uid pid) l db.

(** The rows of [reviews] for a (project, reviewer) pair. *)
Definition pair_rows (db : database) (pid uid : Z) : list review :=
  filter (review_of pid uid) (reviews db).

(** One request served by a writing handler. *)
Inductive step (db : database) : database -> Prop :=
| step_register : forall bcrypt_hash jwt_sign now username email password,
    step db (snd (post_register bcrypt_hash jwt_sign db now
                                username email password))
| step_put_users_me : forall uid username full_name bio file,
    step db (snd (put_users_me db uid username full_name bio file))
| step_post_project : forall now uid t d s g n m file,
    step db (snd (post_project db now uid t d s g n m file))
| step_put_project : forall uid pid t d s g n m,
    step db (snd (put_project db uid pid t d s g n m))
| step_delete_project : forall uid pid,
    step db (snd (delete_project db uid pid))
| step_post_review : forall now uid pid rating comment,
    step db (snd (post_review db now uid pid rating comment)).

(** The states the service can be in, starting from the empty schema
    that [db/database.js] creates. *)
Inductive reachable : database -> Prop :=
| reachable_empty : reachable empty_db
| reachable_step : forall db db', reachable db -> step db db' -> reachable db'.

(** ** Invariants of the reachable states *)

Definition users_ok (db : database) : Prop :=
  (forall u, In u (users db) -> u_id u <= seq_users db) /\
  (forall uid,
     (List.length (filter (fun u => (u_id u =? uid)%Z) (users db)) <= 1)%nat).

Definition projects_ok (db : database) : Prop :=
  forall p, In p (projects db) ->
    p_id p <= seq_projects db /\ has_user db (p_author_id p) = true.

Definition files_ok (db : database) : Prop :=
  (forall f, In f (project_files db) -> f_project_id f <= seq_projects db) /\
  (forall pid, (List.length (files_of db pid) <= 1)%nat).

Definition reviews_unique (db : database) : Prop :=
  forall pid uid, (List.length (pair_rows db pid uid) <= 1)%nat.

Definition ratings_in_range (db : database) : Prop :=
  forall r, In r (reviews db) -> (1 <= r_rating r <= 5)%Q.

Definition well_formed (db : database) : Prop :=
  users_ok db /\ projects_ok db /\ files_ok db /\
  reviews_unique db /\ ratings_in_range db.

(** A rating is an integer when its reduced denominator is 1. *)
Definition is_integer (q : Q) : Prop := Qden (Qred q) = 1%positive.


(** The latest attachment row of a project: the one uploaded last, the
    higher rowid winning a tie. *)
Definition later (a b : project_file) : bool :=
  (f_uploaded_at a <? f_uploaded_at b)
  || ((f_uploaded_at a =? f_uploaded_at b) && (f_id a <? f_id b)).

Definition latest_file (fs : list project_file) : option project_file :=
  fold_left (fun acc f => match acc with
                          | None => Some f
                          | Some a => if later a f then Some f else Some a
                          end) fs None.

(** ** A concrete run, used to exercise the theorems *)

Definition demo_hash (s : string) : string := "$2b$10$" ++ s.
Definition demo_compare (s h : string) : bool := String.eqb (demo_hash s) h.
Definition demo_sign (who : identity) (now : Z) : string :=
  "token-of-" ++ i_username who.
Definition demo_verify (t : string) (now : Z) : option identity :=
  if String.eqb t "token-of-alice"
  then Some (mkIdentity 1 "alice" "alice@usthb.dz")
  else None.
Definition first_row (j : joined_row) (js : list joined_row) : joined_row := j.
Definition last_row (j : joined_row) (js : list joined_row) : joined_row :=
  last js j.

(** alice and bob register, alice publishes a project with a file, bob
    reviews it with a 4. *)
Definition demo_db1 : database :=
  snd (post_register demo_hash demo_sign empty_db 100
         (Some "alice") (Some "alice@usthb.dz") (Some "secret1")).
Definition demo_db2 : database :=
  snd (post_register demo_hash demo_sign demo_db1 200
         (Some "bob") (Some "bob@usthb.dz") (Some "secret2")).
Definition demo_db3 : database :=
  snd (post_project demo_db2 300 1 (Some "Thermostat PID")
         (Some "A PID controller for lab thermostat")
         None None None None (Some "project-1.pdf")).
Definition demo_db4 : database :=
  snd (post_review demo_db3 400 2 1 (Some 4%Q) None).

(** A [project_files] table with two rows for project 1, as the schema
    allows (the column has no UNIQUE constraint). *)
Definition two_files_db : database :=
  mkDb [mkUser 1 "alice" "alice@usthb.dz" "$2b$10$secret1" None None None 100;
        mkUser 2 "bob" "bob@usthb.dz" "$2b$10$secret2" None None None 200]
       [mkProject 1 "Thermostat PID" "A PID controller for lab thermostat"
                  1 None None None None 300]
       [mkReview 1 1 2 4%Q None 400]
       [mkFile 1 1 "/uploads/project-1.pdf" 300;
        mkFile 2 1 "/uploads/project-1-v2.pdf" 500]
       2 1 1 2.

(** ** The other read handlers of [routes/projects.js] *)

(** One element of the [reviews] array of [router.get("/:id/reviews")]:
    [reviews.*] with the reviewer's username and profile picture. *)
Record review_view := mkReviewView {
  rv_review : review;
  rv_username : string;
  rv_profile_picture : option string
}.

(** Stable insertion sort for [ORDER BY reviews.created_at DESC]. *)
Fixpoint insert_review_desc (v : review_view) (l : list review_view)
    : list review_view :=
  match l with
  | [] => [v]
  | x :: xs => if r_created_at (rv_review x) <? r_created_at (rv_review v)
               then v :: l
               else x :: insert_review_desc v xs
  end.

(** [reviews JOIN users ON users.id = reviews.reviewer_id
    WHERE reviews.project_id = ?]. *)
Definition reviews_with_users (db : database) (pid : Z) : list review_view :=
  flat_map (fun r =>
    map (fun u => mkReviewView r (u_username u) (u_profile_picture u))
        (filter (fun u => u_id u =? r_reviewer_id r) (users db)))
    (reviews_of db pid).

(** [router.get("/:id/reviews")]: the [reviews] array of the response;
    the handler does not look the project up. *)
Definition get_reviews (db : database) (projectId : Z) : list review_view :=
  fold_right insert_review_desc [] (reviews_with_users db projectId).

(** [router.get("/:id/my-review")]: [review || null]. *)
Definition get_my_review (db : database) (user_id projectId : Z)
    : option review :=
  select_review db projectId user_id.

(** ** [utils/cloudinary.js]: the public id of an uploaded image *)

(** Group 1 of [url.match(/\/([^/]+)$/)] before the non-emptiness that
    [+] asks for: the text after the last slash, if there is a slash. *)
Fixpoint after_last_slash (s : string) : option string :=
  match s with
  | EmptyString => None
  | String c s' =>
    match after_last_slash s' with
    | Some t => Some t
    | None => if Ascii.eqb c "/" then Some s' else None
    end
  end.

(** [x.split('.')[0]]: the text before the first dot. *)
Fixpoint before_first_dot (s : string) : string :=
  match s with
  | EmptyString => EmptyString
  | String c s' => if Ascii.eqb c "." then EmptyString
                   else String c (before_first_dot s')
  end.

(** [deleteFromCloudinary(url)]: the argument of the one call
    [cloudinary.uploader.destroy(...)] it makes, or [None] when it makes
    none. [configured] says whether [CLOUDINARY_CLOUD_NAME] is set. *)
Definition deleteFromCloudinary (configured : bool) (url : option string)
    : option string :=
  if negb configured || negb (truthy url)
  then None
  else
    match after_last_slash (str url) with
    | Some EmptyString => None
    | Some segment => Some ("tic-projects/avatars/" ++ before_first_dot segment)
    | None => None
    end.

(** [/\/([^/]+)$/] as a pattern on the whole string: anything, a slash,
    one or more characters that are not a slash. *)
Definition is_slash (c : ascii) : bool := Ascii.eqb c "/".

Definition publicIdRegex : regex :=
  Cat (Star (NoneOf (fun _ => false)))
      (Cat (Lit "/") (Plus (NoneOf is_slash))).

(** ** The language of a regular expression *)

Inductive matches : regex -> string -> Prop :=
| matches_eps : matches Eps EmptyString
| matches_lit : forall c, matches (Lit c) (String c EmptyString)
| matches_none_of : forall cls c,
    cls c = false -> matches (NoneOf cls) (String c EmptyString)
| matches_cat : forall a b s1 s2,
    matches a s1 -> matches b s2 -> matches (Cat a b) (s1 ++ s2)
| matches_alt_l : forall a b s, matches a s -> matches (Alt a b) s
| matches_alt_r : forall a b s, matches b s -> matches (Alt a b) s
| matches_star_nil : forall a, matches (Star a) EmptyString
| matches_star_cons : forall a s1 s2,
    matches a s1 -> matches (Star a) s2 -> matches (Star a) (s1 ++ s2).

(** Every code unit of [s] satisfies [f]. *)
Fixpoint all_chars (f : ascii -> bool) (s : string) : bool :=
  match s with
  | EmptyString => true
  | String c s' => f c && all_chars f s'
  end.

(** A non-empty string without whitespace and without an at sign. *)
Definition email_part (s : string) : Prop :=
  s <> EmptyString /\ all_chars (fun c => negb (space_or_at c)) s = true.

(** ** Further invariants of the reachable states *)

(** Primary keys: every row id is at most its table's counter and no two
    rows of a table share an id. *)
Definition keys_ok (db : database) : Prop :=
  (forall p, In p (projects db) -> p_id p <= seq_projects db)
  /\ (forall i, (List.length (filter (fun p => (p_id p =? i)%Z) (projects db)) <= 1)%nat)
  /\ (forall r, In r (reviews db) -> r_id r <= seq_reviews db)
  /\ (forall i, (List.length (filter (fun r => (r_id r =? i)%Z) (reviews db)) <= 1)%nat)
  /\ (forall f, In f (project_files db) -> f_id f <= seq_files db)
  /\ (forall i, (List.length (filter (fun f => (f_id f =? i)%Z) (project_files db)) <= 1)%nat).

(** Foreign keys of [reviews] and [project_files]. *)
Definition references_ok (db : database) : Prop :=
  (forall r, In r (reviews db) ->
     has_project db (r_project_id r) = true
     /\ has_user db (r_reviewer_id r) = true)
  /\ (forall f, In f (project_files db) ->
        has_project db (f_project_id f) = true).

(** The two UNIQUE columns of [users]. *)
Definition names_ok (db : database) : Prop :=
  (forall n, (List.length (filter (fun u => String.eqb (u_username u) n)
                                  (users db)) <= 1)%nat)
  /\ (forall e, (List.length (filter (fun u => String.eqb (u_email u) e)
                                     (users db)) <= 1)%nat).

(** Non-increasing sequence of timestamps. *)
Fixpoint newest_first (l : list Z) : Prop :=
  match l with
  | [] => True
  | x :: xs => (forall y, In y xs -> y <= x) /\ newest_first xs
  end.

(** ** Notions used by the statements *)

(** What a row keeps when a review is re-submitted. *)
Definition same_identity (r r' : review) : Prop :=
  r_id r' = r_id r /\ r_project_id r' = r_project_id r /\
  r_reviewer_id r' = r_reviewer_id r /\ r_created_at r' = r_created_at r.

(** The three things a submission can do to the [reviews] table. *)
Inductive review_effect (db : database) (now uid pid : Z)
    (rating : option Q) (comment : option string) (db' : database) : Prop :=
| effect_none :
    db' = db -> review_effect db now uid pid rating comment db'
| effect_update : forall q existing,
    rating = Some q -> rating_rejected rating = false ->
    select_review db pid uid = Some existing ->
    reviews db' = map (set_rating_comment q (or_null comment) (r_id existing))
                      (reviews db) ->
    review_effect db now uid pid rating comment db'
| effect_insert : forall q,
    rating = Some q -> rating_rejected rating = false ->
    select_review db pid uid = None ->
    reviews db' = (reviews db ++ [mkReview (seq_reviews db + 1) pid uid q
                                           (or_null comment) now])%list ->
    review_effect db now uid pid rating comment db'.


(** ** Proof automation *)

Ltac db_simpl :=
  cbn [users projects reviews project_files seq_users seq_projects
       seq_reviews seq_files set_users set_projects set_reviews set_files
       fst snd u_id p_id p_author_id f_project_id].

Ltac break_match :=
  match goal with
  | |- context [match ?x with _ => _ end] => destruct x eqn:?
  | |- context [if ?x then _ else _] => destruct x eqn:?
  end.

(** * Properties *)

(** ** Basic facts about the statements *)

Lemma find_some_in {A : Type} (f : A -> bool) (l : list A) (x : A) :
  find f l = Some x -> In x l /\ f x = true.
Proof. apply find_some. Qed.

Lemma find_none_existsb {A : Type} (f : A -> bool) (l : list A) :
  find f l = None -> existsb f l = false.
Proof.
  induction l as [|a l IH]; simpl; [reflexivity|].
  destruct (f a); [discriminate | assumption].
Qed.

Lemma find_some_existsb {A : Type} (f : A -> bool) (l : list A) (x : A) :
  find f l = Some x -> existsb f l = true.
Proof.
  intros H. apply find_some in H. apply existsb_exists. exists x. exact H.
Qed.

Lemma filter_nil_existsb {A : Type} (f : A -> bool) (l : list A) :
  existsb f l = false <-> filter f l = [].
Proof.
  induction l as [|a l IH]; simpl; [tauto|].
  destruct (f a); simpl; [split; discriminate | exact IH].
Qed.

Lemma existsb_filter_negb {A : Type} (f : A -> bool) (l : list A) :
  existsb f (filter (fun x => negb (f x)) l) = false.
Proof.
  induction l as [|a l IH]; simpl; [reflexivity|].
  destruct (f a) eqn:E; simpl; [assumption | now rewrite E].
Qed.

Lemma rating_accepted_check (q : Q) :
  rating_rejected (Some q) = false -> check_rating q = true.
Proof.
  unfold rating_rejected, check_rating. intros H.
  apply orb_false_elim in H. destruct H as [H H5].
  apply orb_false_elim in H. destruct H as [_ H1].
  apply negb_false_iff in H1, H5. now rewrite H1, H5.
Qed.

Lemma check_rating_range (q : Q) :
  check_rating q = true <-> (1 <= q <= 5)%Q.
Proof.
  unfold check_rating. rewrite andb_true_iff, !Qle_bool_iff. tauto.
Qed.

(** ** C10: the update path of the review upsert *)

Lemma set_rating_comment_frame (q : Q) (c : option string) (rid : Z) (rs : list review) :
  Forall2 (fun r r' => same_identity r r' /\ (r_id r <> rid -> r' = r))
          rs (map (set_rating_comment q c rid) rs).
Proof.
  induction rs as [|r rs IH]; simpl; constructor; [|exact IH].
  unfold set_rating_comment, same_identity.
  destruct (r_id r =? rid) eqn:E; simpl.
  - apply Z.eqb_eq in E. repeat split; try reflexivity. intros H. contradiction.
  - repeat split; reflexivity.
Qed.

Lemma Forall2_same (rs : list review) (rid : Z) :
  Forall2 (fun r r' => same_identity r r' /\ (r_id r <> rid -> r' = r)) rs rs.
Proof.
  induction rs; constructor; [|assumption].
  unfold same_identity. repeat split; reflexivity.
Qed.

(** C10. When the pair already has a review, a submission leaves the id,
    project_id, reviewer_id and created_at of every review row as they
    were, whatever the clock reads; rows other than the existing review
    are untouched, and so are the other three tables. *)
Theorem post_review_update_frame (db : database) (now uid pid : Z)
    (rating : option Q) (comment : option string) (existing : review) :
  select_review db pid uid = Some existing ->
  let db' := snd (post_review db now uid pid rating comment) in
  Forall2 (fun r r' => same_identity r r' /\ (r_id r <> r_id existing -> r' = r))
          (reviews db) (reviews db')
  /\ users db' = users db /\ projects db' = projects db
  /\ project_files db' = project_files db.
Proof.
  intros Hex. unfold post_review.
  destruct rating as [q|]; simpl; [|auto using Forall2_same].
  destruct (Qeq_bool q 0 || negb (Qle_bool 1 q) || negb (Qle_bool q 5));
    simpl; [auto using Forall2_same|].
  destruct (select_project db pid); simpl; [|auto using Forall2_same].
  rewrite Hex. unfold update_review.
  destruct (check_rating q); simpl; [|auto using Forall2_same].
  split; [apply set_rating_comment_frame | auto].
Qed.

(** The update path is taken and rewrites rating and comment. *)
Lemma post_review_update_values (db : database) (now uid pid : Z) (q : Q)
    (comment : option string) (existing : review) :
  select_review db pid uid = Some existing ->
  rating_rejected (Some q) = false ->
  has_project db pid = true ->
  post_review db now uid pid (Some q) comment =
  (mkResp 200 "Review updated successfully",
   set_reviews (map (set_rating_comment q (or_null comment) (r_id existing))
                    (reviews db)) (seq_reviews db) db).
Proof.
  intros Hex Hq Hp. unfold post_review. rewrite Hq.
  unfold select_project. unfold has_project in Hp.
  destruct (find (fun p => p_id p =? pid) (projects db)) eqn:F.
  - rewrite Hex. unfold update_review.
    now rewrite (rating_accepted_check q Hq).
  - apply find_none_existsb in F. congruence.
Qed.

(** The update path on the concrete run: bob re-submits at time 900. *)
Lemma post_review_update_frame_witness :
  let db' := snd (post_review demo_db4 900 2 1 (Some 2%Q) (Some "meh")) in
  Forall2 (fun r r' => same_identity r r' /\ (r_id r <> 1 -> r' = r))
          (reviews demo_db4) (reviews db')
  /\ users db' = users demo_db4 /\ projects db' = projects demo_db4
  /\ project_files db' = project_files demo_db4.
Proof.
  exact (post_review_update_frame demo_db4 900 2 1 (Some 2%Q) (Some "meh")
           (mkReview 1 1 2 4%Q None 400) eq_refl).
Defined.

(** ** C8: the rating that is stored *)

(** Whatever the handler stores lies between 1 and 5. *)
Lemma post_review_range (db : database) (now uid pid : Z)
    (rating : option Q) (comment : option string) :
  ratings_in_range db ->
  ratings_in_range (snd (post_review db now uid pid rating comment)).
Proof.
  intros Hr. unfold post_review.
  destruct rating as [q|]; [|exact Hr].
  destruct (rating_rejected (Some q)) eqn:Hq; [exact Hr|].
  pose proof (rating_accepted_check q Hq) as Hc.
  destruct (select_project db pid); [|exact Hr].
  destruct (select_review db pid uid) as [ex|].
  - unfold update_review. rewrite Hc. simpl.
    intros r Hin. simpl in Hin. apply in_map_iff in Hin.
    destruct Hin as [r0 [E Hin]]. subst r. unfold set_rating_comment.
    destruct (r_id r0 =? r_id ex); simpl; [now apply check_rating_range | auto].
  - unfold insert_review. rewrite Hc. simpl.
    destruct (pair_free (reviews db) pid uid && has_project db pid
              && has_user db uid); [|exact Hr].
    simpl. intros r Hin. simpl in Hin. apply in_app_iff in Hin.
    destruct Hin as [Hin|[E|[]]]; [auto|].
    subst r. simpl. now apply check_rating_range.
Qed.

(** C8, at the failing input. bob submits the JSON number 4.5 for
    project 1: the handler answers 201 and the stored rating is 9/2,
    within the range but not an integer. *)
Theorem post_review_stores_fractional_rating :
  post_review demo_db3 400 2 1 (Some (9 # 2)) None =
    (mkResp 201 "Review added successfully",
     set_reviews [mkReview 1 1 2 (9 # 2) None 400] 1 demo_db3)
  /\ ~ is_integer (9 # 2).
Proof.
  split; [reflexivity|].
  unfold is_integer. vm_compute. discriminate.
Qed.

(** ** C3: ownership of update and delete *)

Lemma has_project_select (db : database) (pid : Z) (p : project) :
  select_project db pid = Some p -> has_project db pid = true /\ p_id p = pid.
Proof.
  unfold select_project, has_project. intros H. split.
  - eapply find_some_existsb; eassumption.
  - apply find_some in H. now apply Z.eqb_eq.
Qed.

Lemma delete_cascade_allowed (db : database) (pid : Z) :
  delete_project_row (delete_files (delete_reviews db pid) pid) pid =
  Some (set_projects (filter (fun p => negb (p_id p =? pid)) (projects db))
          (seq_projects db) (delete_files (delete_reviews db pid) pid)).
Proof.
  unfold delete_project_row. simpl.
  rewrite (existsb_filter_negb (fun r => r_project_id r =? pid)).
  rewrite (existsb_filter_negb (fun f => f_project_id f =? pid)).
  now rewrite andb_false_r.
Qed.



(** ** C4: the cascade of a delete *)

Lemma filter_filter_negb {A : Type} (f : A -> bool) (l : list A) :
  filter f (filter (fun x => negb (f x)) l) = [].
Proof.
  apply filter_nil_existsb. apply existsb_filter_negb.
Qed.

Lemma delete_row_refused (db : database) (pid : Z) :
  has_project db pid = true ->
  reviews_of db pid <> [] \/ files_of db pid <> [] ->
  delete_project_row db pid = None.
Proof.
  intros Hp Hdep. unfold delete_project_row. rewrite Hp. simpl.
  destruct (existsb (fun r => r_project_id r =? pid) (reviews db)) eqn:Er;
    [reflexivity|].
  destruct (existsb (fun f => f_project_id f =? pid) (project_files db)) eqn:Ef;
    [reflexivity|].
  apply filter_nil_existsb in Er, Ef. unfold reviews_of, files_of in Hdep.
  destruct Hdep as [H|H]; contradiction.
Qed.

(** C4. A delete requested by the author answers 200 and its final state
    is the one obtained by deleting the reviews of the project, then its
    attachment rows, then the project row; the project row could not go
    first while a dependent row exists, since the foreign keys refuse
    it. Afterwards the project has no review row, no attachment row and
    no project row, and a get of its id answers 404. *)
Theorem delete_project_cascade
    (arbitrary_row : joined_row -> list joined_row -> joined_row)
    (db : database) (uid pid : Z) (p : project) :
  select_project db pid = Some p ->
  p_author_id p = uid ->
  exists db',
    delete_project db uid pid = (mkResp 200 "Project deleted successfully", db')
    /\ delete_project_row (delete_files (delete_reviews db pid) pid) pid = Some db'
    /\ (reviews_of db pid <> [] \/ files_of db pid <> [] ->
        delete_project_row db pid = None)
    /\ reviews_of db' pid = [] /\ files_of db' pid = []
    /\ has_project db' pid = false
    /\ get_project arbitrary_row db' pid = inl (mkResp 404 "Project not found").
Proof.
  intros Hp Ha.
  destruct (has_project_select db pid p Hp) as [Hhp _].
  eexists. split; [|split; [apply delete_cascade_allowed|]].
  - unfold delete_project. rewrite Hp.
    apply Z.eqb_eq in Ha. rewrite Ha. simpl.
    rewrite delete_cascade_allowed. reflexivity.
  - split; [now apply delete_row_refused|].
    unfold reviews_of, files_of, has_project, get_project. simpl.
    rewrite (filter_filter_negb (fun r => r_project_id r =? pid)).
    rewrite (filter_filter_negb (fun f => f_project_id f =? pid)).
    rewrite (filter_filter_negb (fun x => p_id x =? pid)).
    rewrite (existsb_filter_negb (fun x => p_id x =? pid)).
    repeat split; reflexivity.
Qed.

(** alice deletes her reviewed project with its file. *)
Lemma delete_project_cascade_witness :
  exists db',
    delete_project demo_db4 1 1 = (mkResp 200 "Project deleted successfully", db')
    /\ delete_project_row (delete_files (delete_reviews demo_db4 1) 1) 1 = Some db'
    /\ (reviews_of demo_db4 1 <> [] \/ files_of demo_db4 1 <> [] ->
        delete_project_row demo_db4 1 = None)
    /\ reviews_of db' 1 = [] /\ files_of db' 1 = []
    /\ has_project db' 1 = false
    /\ get_project first_row db' 1 = inl (mkResp 404 "Project not found").
Proof.
  exact (delete_project_cascade first_row demo_db4 1 1
           (mkProject 1 "Thermostat PID" "A PID controller for lab thermostat"
                      1 None None None None 300) eq_refl eq_refl).
Defined.

(** ** The invariants hold in every reachable state *)

Lemma filter_length_sub {A : Type} (f g : A -> bool) (l : list A) :
  (List.length (filter f (filter g l)) <= List.length (filter f l))%nat.
Proof.
  induction l as [|a l IH]; simpl; [lia|].
  destruct (g a); simpl; destruct (f a); simpl; lia.
Qed.

Lemma filter_map_length {A : Type} (f : A -> bool) (g : A -> A) (l : list A) :
  (forall x, f (g x) = f x) ->
  List.length (filter f (map g l)) = List.length (filter f l).
Proof.
  intros Hg. induction l as [|a l IH]; simpl; [reflexivity|].
  rewrite Hg. destruct (f a); simpl; lia.
Qed.

Lemma filter_fresh {A : Type} (f : A -> bool) (l : list A) :
  (forall x, In x l -> f x = false) -> filter f l = [].
Proof.
  intros H. induction l as [|a l IH]; simpl; [reflexivity|].
  rewrite (H a (or_introl eq_refl)). apply IH. intros x Hx. apply H. now right.
Qed.

Lemma existsb_map_same {A : Type} (f : A -> bool) (g : A -> A) (l : list A) :
  (forall x, f (g x) = f x) -> existsb f (map g l) = existsb f l.
Proof.
  intros Hg. induction l as [|a l IH]; simpl; [reflexivity|].
  now rewrite Hg, IH.
Qed.

(** The effect of each handler on the [users] table. *)
Lemma register_users bcrypt_hash jwt_sign db now username email password :
  let db' := snd (post_register bcrypt_hash jwt_sign db now username email password) in
  (db' = db \/
   exists u, u_id u = seq_users db + 1 /\ users db' = (users db ++ [u])%list
             /\ seq_users db' = seq_users db + 1)
  /\ projects db' = projects db /\ reviews db' = reviews db
  /\ project_files db' = project_files db
  /\ seq_projects db' = seq_projects db.
Proof.
  unfold post_register. simpl.
  repeat break_match; simpl; try (split; [left; reflexivity | auto]).
  match goal with
  | H : insert_user _ _ _ _ _ = Some _ |- _ =>
    unfold insert_user in H; destruct (existsb _ _) in H;
    [discriminate | injection H as <- <-]
  end.
  simpl. split; [|auto].
  right. eexists. split; [|split; reflexivity]. reflexivity.
Qed.

Lemma put_users_me_users db uid username full_name bio file :
  let db' := snd (put_users_me db uid username full_name bio file) in
  (exists g, (forall u, u_id (g u) = u_id u) /\ users db' = map g (users db))
  /\ seq_users db' = seq_users db
  /\ projects db' = projects db /\ reviews db' = reviews db
  /\ project_files db' = project_files db
  /\ seq_projects db' = seq_projects db.
Proof.
  unfold put_users_me.
  repeat break_match; simpl; (split; [|repeat split; reflexivity]);
    first [ exists (fun x => x); split; [reflexivity | now rewrite map_id]
          | eexists; split; [|reflexivity];
            intros x; simpl; destruct (u_id x =? uid); reflexivity ].
Qed.

Lemma users_ok_append (db db' : database) (u : user) :
  users_ok db -> u_id u = seq_users db + 1 ->
  users db' = (users db ++ [u])%list -> seq_users db' = seq_users db + 1 ->
  users_ok db'.
Proof.
  intros [Hle Huniq] Hid Hus Hseq. split.
  - intros x Hx. rewrite Hus in Hx. rewrite Hseq.
    apply in_app_iff in Hx. destruct Hx as [Hx|[<-|[]]]; [|lia].
    specialize (Hle x Hx). lia.
  - intros uid. rewrite Hus, filter_app, length_app. simpl.
    destruct (u_id u =? uid) eqn:E; simpl; [|specialize (Huniq uid); lia].
    apply Z.eqb_eq in E.
    rewrite (filter_fresh (fun x => u_id x =? uid)); [simpl; lia|].
    intros x Hx. specialize (Hle x Hx). apply Z.eqb_neq. lia.
Qed.

Lemma users_ok_map (db db' : database) (g : user -> user) :
  users_ok db -> (forall u, u_id (g u) = u_id u) ->
  users db' = map g (users db) -> seq_users db' = seq_users db ->
  users_ok db'.
Proof.
  intros [Hle Huniq] Hg Hus Hseq. split.
  - intros x Hx. rewrite Hus in Hx. apply in_map_iff in Hx.
    destruct Hx as [y [<- Hy]]. rewrite Hg, Hseq. auto.
  - intros uid. rewrite Hus.
    rewrite (filter_map_length (fun x => u_id x =? uid)); [apply Huniq|].
    intros x. now rewrite Hg.
Qed.

(** The effect of each handler of [routes/projects.js] on the tables. *)
Lemma insert_project_inv db now t d a s g n m db1 pid :
  insert_project db now t d a s g n m = Some (db1, pid) ->
  has_user db a = true /\ pid = seq_projects db + 1
  /\ db1 = set_projects (projects db ++ [mkProject pid t d a s g n m now]) pid db.
Proof.
  unfold insert_project. destruct (has_user db a); [|discriminate].
  intros H. injection H as <- <-. auto.
Qed.

Lemma insert_file_inv db now pid path db' :
  insert_file db now pid path = Some db' ->
  db' = set_files (project_files db ++ [mkFile (seq_files db + 1) pid path now])
                  (seq_files db + 1) db.
Proof.
  unfold insert_file. destruct (has_project db pid); [|discriminate].
  intros H. now injection H as <-.
Qed.

Lemma post_project_effect db now uid t d s g n m file :
  let db' := snd (post_project db now uid t d s g n m file) in
  users db' = users db /\ seq_users db' = seq_users db
  /\ reviews db' = reviews db
  /\ ((projects db' = projects db /\ seq_projects db' = seq_projects db
       /\ project_files db' = project_files db)
      \/ exists p,
           p_id p = seq_projects db + 1
           /\ has_user db (p_author_id p) = true
           /\ projects db' = (projects db ++ [p])%list
           /\ seq_projects db' = seq_projects db + 1
           /\ (project_files db' = project_files db
               \/ exists f, f_project_id f = seq_projects db + 1
                            /\ project_files db' = (project_files db ++ [f])%list)).
Proof.
  unfold post_project.
  repeat break_match; db_simpl;
    try (repeat split; try reflexivity; left; repeat split; reflexivity);
    match goal with
    | H : insert_project _ _ _ _ _ _ _ _ _ = Some _ |- _ =>
      apply insert_project_inv in H; destruct H as [Hu [Hz Hd]]
    end;
    try match goal with
    | H : insert_file _ _ _ _ = Some _ |- _ => apply insert_file_inv in H
    end;
    subst; db_simpl; repeat (split; [reflexivity|]); right.
  - eexists. split; [|split; [|split; [reflexivity|]]];
      [reflexivity | exact Hu | split; [reflexivity|]].
    right. eexists. split; [|reflexivity]. reflexivity.
  - eexists. split; [|split; [|split; [reflexivity|]]];
      [reflexivity | exact Hu | split; [reflexivity|]].
    now left.
  - eexists. split; [|split; [|split; [reflexivity|]]];
      [reflexivity | exact Hu | split; [reflexivity|]].
    now left.
Qed.

Lemma put_project_effect db uid pid t d s g n m :
  let db' := snd (put_project db uid pid t d s g n m) in
  users db' = users db /\ seq_users db' = seq_users db
  /\ reviews db' = reviews db /\ project_files db' = project_files db
  /\ seq_projects db' = seq_projects db
  /\ exists f, (forall p, p_id (f p) = p_id p /\ p_author_id (f p) = p_author_id p)
               /\ projects db' = map f (projects db).
Proof.
  unfold put_project.
  repeat break_match; db_simpl;
    try (repeat (split; [reflexivity|]);
         exists (fun p => p); split; [auto | now rewrite map_id]).
  match goal with
  | H : update_project _ _ _ _ _ _ _ _ = Some _ |- _ =>
    unfold update_project in H; revert H
  end.
  repeat break_match; try discriminate; intros H; injection H as <-; db_simpl;
    repeat (split; [reflexivity|]).
  - eexists. split; [|reflexivity].
    intros p0. cbv beta. destruct (p_id p0 =? pid); simpl; auto.
  - exists (fun p => p). split; [auto | now rewrite map_id].
Qed.

Lemma delete_project_effect db uid pid :
  let db' := snd (delete_project db uid pid) in
  users db' = users db /\ seq_users db' = seq_users db
  /\ seq_projects db' = seq_projects db
  /\ (exists f, projects db' = filter f (projects db))
  /\ (db' = db \/
      (reviews db' = filter (fun r => negb (r_project_id r =? pid)) (reviews db)
       /\ project_files db' =
          filter (fun f => negb (f_project_id f =? pid)) (project_files db))).
Proof.
  unfold delete_project.
  destruct (select_project db pid) as [p|]; simpl.
  2:{ repeat (split; [reflexivity|]). split; [|now left].
      exists (fun _ => true). clear. induction (projects db); simpl; congruence. }
  destruct (negb (p_author_id p =? uid)); simpl.
  { repeat (split; [reflexivity|]). split; [|now left].
    exists (fun _ => true). clear. induction (projects db); simpl; congruence. }
  rewrite delete_cascade_allowed. simpl.
  repeat (split; [reflexivity|]). split; [eexists; reflexivity|].
  right. split; reflexivity.
Qed.

Lemma post_review_effect db now uid pid rating comment :
  let db' := snd (post_review db now uid pid rating comment) in
  users db' = users db /\ seq_users db' = seq_users db
  /\ projects db' = projects db /\ seq_projects db' = seq_projects db
  /\ project_files db' = project_files db.
Proof.
  unfold post_review.
  repeat break_match; db_simpl; try (repeat split; reflexivity);
    match goal with
    | H : update_review _ _ _ _ = Some _ |- _ =>
      unfold update_review in H; destruct (check_rating _) in H;
      [injection H as <- | discriminate]
    | H : insert_review _ _ _ _ _ _ = Some _ |- _ =>
      unfold insert_review in H;
      match type of H with
      | (if ?c then _ else _) = _ =>
        destruct c; [injection H as <- | discriminate]
      end
    end; repeat split; reflexivity.
Qed.

Lemma post_review_reviews db now uid pid rating comment :
  review_effect db now uid pid rating comment
                (snd (post_review db now uid pid rating comment)).
Proof.
  unfold post_review.
  destruct rating as [q|]; [|now apply effect_none].
  destruct (rating_rejected (Some q)) eqn:Hq; [now apply effect_none|].
  destruct (select_project db pid); [|now apply effect_none].
  destruct (select_review db pid uid) as [ex|] eqn:Hs.
  - unfold update_review. destruct (check_rating q); [|now apply effect_none].
    now apply (effect_update _ _ _ _ _ _ _ q ex).
  - unfold insert_review.
    destruct (check_rating q && pair_free (reviews db) pid uid
              && has_project db pid && has_user db uid);
      [|now apply effect_none].
    now apply (effect_insert _ _ _ _ _ _ _ q).
Qed.

Lemma set_rating_comment_pair (q : Q) (c : option string) (rid pid uid : Z)
    (r : review) :
  review_of pid uid (set_rating_comment q c rid r) = review_of pid uid r.
Proof.
  unfold set_rating_comment. now destruct (r_id r =? rid).
Qed.

Lemma post_review_unique db now uid pid rating comment :
  reviews_unique db ->
  reviews_unique (snd (post_review db now uid pid rating comment)).
Proof.
  intros Hu.
  destruct (post_review_reviews db now uid pid rating comment)
    as [-> | q ex _ _ _ Hr | q _ _ Hs Hr]; [exact Hu| |];
    intros pid' uid'; unfold pair_rows; rewrite Hr.
  - rewrite filter_map_length; [apply Hu|].
    intros r. apply set_rating_comment_pair.
  - rewrite filter_app, length_app. simpl.
    destruct (review_of pid' uid' _) eqn:E; simpl;
      [|specialize (Hu pid' uid'); unfold pair_rows in Hu; lia].
    unfold review_of in E. simpl in E. apply andb_true_iff in E.
    destruct E as [E1 E2]. apply Z.eqb_eq in E1, E2. subst pid' uid'.
    apply find_none_existsb in Hs. apply filter_nil_existsb in Hs.
    rewrite Hs. simpl. lia.
Qed.

(** ** Preservation of the invariants by every request *)

Lemma has_user_users (db db' : database) (uid : Z) :
  users db' = users db -> has_user db' uid = has_user db uid.
Proof. unfold has_user. now intros ->. Qed.

Lemma projects_ok_frame (db db' : database) :
  projects_ok db ->
  (forall uid, has_user db uid = true -> has_user db' uid = true) ->
  seq_projects db <= seq_projects db' ->
  (forall p, In p (projects db') ->
     (exists p0, In p0 (projects db) /\ p_id p = p_id p0
                 /\ p_author_id p = p_author_id p0)
     \/ (p_id p <= seq_projects db' /\ has_user db' (p_author_id p) = true)) ->
  projects_ok db'.
Proof.
  intros Hok Hmono Hseq Hsrc p Hin.
  destruct (Hsrc p Hin) as [[p0 [H0 [-> ->]]]|H]; [|exact H].
  destruct (Hok p0 H0) as [Hle Hau]. split; [lia | auto].
Qed.

Lemma files_ok_frame (db db' : database) :
  files_ok db -> project_files db' = project_files db ->
  seq_projects db' = seq_projects db -> files_ok db'.
Proof.
  intros [Hle Hone] Hf Hs. unfold files_ok, files_of. rewrite Hf, Hs.
  split; assumption.
Qed.

Lemma reviews_frame (db db' : database) :
  reviews db' = reviews db ->
  (reviews_unique db -> reviews_unique db')
  /\ (ratings_in_range db -> ratings_in_range db').
Proof.
  intros Hr. unfold reviews_unique, pair_rows, ratings_in_range.
  rewrite Hr. auto.
Qed.

Lemma register_well_formed bcrypt_hash jwt_sign db now username email password :
  well_formed db ->
  well_formed (snd (post_register bcrypt_hash jwt_sign db now
                                  username email password)).
Proof.
  intros [Hu [Hp [Hf [Hr Hq]]]].
  destruct (register_users bcrypt_hash jwt_sign db now username email password)
    as [Hcase [Eps [Ers [Efs Esp]]]].
  set (db' := snd (post_register _ _ _ _ _ _ _)) in *.
  assert (Hmono : forall uid, has_user db uid = true -> has_user db' uid = true).
  { destruct Hcase as [E|[u [_ [Hus _]]]]; [rewrite E; auto|].
    intros uid. unfold has_user. rewrite Hus, existsb_app. intros ->. reflexivity. }
  split; [|split; [|split; [|split]]].
  - destruct Hcase as [E|[u [Hid [Hus Hseq]]]]; [rewrite E; apply Hu|].
    apply (users_ok_append db db' u Hu Hid Hus Hseq).
  - apply (projects_ok_frame db db' Hp Hmono); [lia|].
    intros p Hin. left. exists p. rewrite Eps in Hin. auto.
  - apply (files_ok_frame db db' Hf Efs Esp).
  - apply (reviews_frame db db' Ers); assumption.
  - apply (reviews_frame db db' Ers); assumption.
Qed.

Lemma put_users_me_well_formed db uid username full_name bio file :
  well_formed db ->
  well_formed (snd (put_users_me db uid username full_name bio file)).
Proof.
  intros [Hu [Hp [Hf [Hr Hq]]]].
  destruct (put_users_me_users db uid username full_name bio file)
    as [[g [Hg Hus]] [Hseq [Eps [Ers [Efs Esp]]]]].
  set (db' := snd (put_users_me _ _ _ _ _ _)) in *.
  assert (Hmono : forall x, has_user db x = true -> has_user db' x = true).
  { intros x. unfold has_user. rewrite Hus.
    rewrite (existsb_map_same (fun u => u_id u =? x)); [auto|].
    intros u. now rewrite Hg. }
  split; [|split; [|split; [|split]]].
  - apply (users_ok_map db db' g Hu Hg Hus Hseq).
  - apply (projects_ok_frame db db' Hp Hmono); [lia|].
    intros p Hin. left. exists p. rewrite Eps in Hin. auto.
  - apply (files_ok_frame db db' Hf Efs Esp).
  - apply (reviews_frame db db' Ers); assumption.
  - apply (reviews_frame db db' Ers); assumption.
Qed.

Lemma users_ok_frame (db db' : database) :
  users_ok db -> users db' = users db -> seq_users db' = seq_users db ->
  users_ok db'.
Proof.
  unfold users_ok. intros H -> ->. exact H.
Qed.

Lemma post_project_well_formed db now uid t d s g n m file :
  well_formed db ->
  well_formed (snd (post_project db now uid t d s g n m file)).
Proof.
  intros [Hu [Hp [Hf [Hr Hq]]]].
  destruct (post_project_effect db now uid t d s g n m file)
    as [Eus [Esu [Ers Hcase]]].
  set (db' := snd (post_project _ _ _ _ _ _ _ _ _ _)) in *.
  assert (Hmono : forall x, has_user db x = true -> has_user db' x = true).
  { intros x. now rewrite (has_user_users db db' x Eus). }
  split; [apply (users_ok_frame db db' Hu Eus Esu)|].
  split; [|split; [|split; apply (reviews_frame db db' Ers); assumption]].
  - destruct Hcase as [[Eps [Esp _]]|[p [Hid [Hau [Eps [Esp _]]]]]].
    + apply (projects_ok_frame db db' Hp Hmono); [lia|].
      intros x Hin. left. exists x. rewrite Eps in Hin. auto.
    + apply (projects_ok_frame db db' Hp Hmono); [lia|].
      intros x Hin. rewrite Eps in Hin. apply in_app_iff in Hin.
      destruct Hin as [Hin|[<-|[]]]; [left; exists x; auto|].
      right. split; [lia | auto].
  - destruct Hcase as [[_ [Esp Efs]]|[p [Hid [Hau [Eps [Esp Hfile]]]]]];
      [apply (files_ok_frame db db' Hf Efs Esp)|].
    destruct Hf as [Hle Hone].
    destruct Hfile as [Efs|[f [Hfid Efs]]]; unfold files_ok, files_of;
      rewrite Efs, Esp.
    + split; [intros x Hx; specialize (Hle x Hx); lia | exact Hone].
    + split.
      * intros x Hx. apply in_app_iff in Hx.
        destruct Hx as [Hx|[<-|[]]]; [specialize (Hle x Hx)|]; lia.
      * intros pid'. rewrite filter_app, length_app. simpl.
        destruct (f_project_id f =? pid') eqn:E; simpl;
          [|specialize (Hone pid'); unfold files_of in Hone; lia].
        apply Z.eqb_eq in E.
        rewrite (filter_fresh (fun x => f_project_id x =? pid')); [simpl; lia|].
        intros x Hx. specialize (Hle x Hx). apply Z.eqb_neq. lia.
Qed.

Lemma put_project_well_formed db uid pid t d s g n m :
  well_formed db ->
  well_formed (snd (put_project db uid pid t d s g n m)).
Proof.
  intros [Hu [Hp [Hf [Hr Hq]]]].
  destruct (put_project_effect db uid pid t d s g n m)
    as [Eus [Esu [Ers [Efs [Esp [f [Hfp Eps]]]]]]].
  set (db' := snd (put_project _ _ _ _ _ _ _ _ _)) in *.
  split; [apply (users_ok_frame db db' Hu Eus Esu)|].
  split; [|split; [apply (files_ok_frame db db' Hf Efs Esp)
                  |split; apply (reviews_frame db db' Ers); assumption]].
  apply (projects_ok_frame db db' Hp); [|lia|].
  - intros x. now rewrite (has_user_users db db' x Eus).
  - intros x Hin. rewrite Eps in Hin. apply in_map_iff in Hin.
    destruct Hin as [p0 [<- Hin]]. left. exists p0.
    destruct (Hfp p0). auto.
Qed.

Lemma delete_project_well_formed db uid pid :
  well_formed db -> well_formed (snd (delete_project db uid pid)).
Proof.
  intros [Hu [Hp [Hf [Hr Hq]]]].
  destruct (delete_project_effect db uid pid)
    as [Eus [Esu [Esp [[fp Eps] Hcase]]]].
  set (db' := snd (delete_project _ _ _)) in *.
  split; [apply (users_ok_frame db db' Hu Eus Esu)|].
  split.
  { apply (projects_ok_frame db db' Hp); [|lia|].
    - intros x. now rewrite (has_user_users db db' x Eus).
    - intros x Hin. rewrite Eps in Hin. apply filter_In in Hin.
      left. exists x. tauto. }
  destruct Hcase as [E|[Ers Efs]];
    [rewrite E; split; [|split]; assumption|].
  split; [|split].
  - destruct Hf as [Hle Hone]. unfold files_ok, files_of. rewrite Efs, Esp.
    split.
    + intros x Hx. apply filter_In in Hx. apply Hle. tauto.
    + intros pid'. etransitivity; [apply filter_length_sub | apply Hone].
  - intros pid' uid'. unfold pair_rows. rewrite Ers.
    etransitivity; [apply filter_length_sub | apply Hr].
  - intros r Hin. rewrite Ers in Hin. apply filter_In in Hin. apply Hq. tauto.
Qed.

Lemma post_review_well_formed db now uid pid rating comment :
  well_formed db ->
  well_formed (snd (post_review db now uid pid rating comment)).
Proof.
  intros [Hu [Hp [Hf [Hr Hq]]]].
  destruct (post_review_effect db now uid pid rating comment)
    as [Eus [Esu [Eps [Esp Efs]]]].
  pose proof (post_review_unique db now uid pid rating comment Hr) as Hr'.
  pose proof (post_review_range db now uid pid rating comment Hq) as Hq'.
  set (db' := snd (post_review _ _ _ _ _ _)) in *.
  split; [apply (users_ok_frame db db' Hu Eus Esu)|].
  split; [|split; [apply (files_ok_frame db db' Hf Efs Esp)|split; assumption]].
  apply (projects_ok_frame db db' Hp); [|lia|].
  - intros x. now rewrite (has_user_users db db' x Eus).
  - intros x Hin. rewrite Eps in Hin. left. exists x. auto.
Qed.

Lemma step_well_formed (db db' : database) :
  step db db' -> well_formed db -> well_formed db'.
Proof.
  intros Hstep Hwf. destruct Hstep.
  - now apply register_well_formed.
  - now apply put_users_me_well_formed.
  - now apply post_project_well_formed.
  - now apply put_project_well_formed.
  - now apply delete_project_well_formed.
  - now apply post_review_well_formed.
Qed.

Lemma empty_well_formed : well_formed empty_db.
Proof.
  unfold well_formed, users_ok, projects_ok, files_ok, reviews_unique,
    ratings_in_range. simpl.
  repeat split; try (intros; contradiction); intros; simpl; lia.
Qed.

(** Every state the service reaches satisfies the schema's invariants:
    row ids are unique and bounded by their counters, every project has
    its author, no project has two attachment rows, no (project,
    reviewer) pair has two reviews, and every rating is within 1..5. *)
Lemma reachable_well_formed (db : database) :
  reachable db -> well_formed db.
Proof.
  induction 1 as [|db db' _ IH Hstep];
    [apply empty_well_formed | now apply (step_well_formed db db')].
Qed.

Lemma demo_db4_reachable : reachable demo_db4.
Proof.
  eapply reachable_step; [|apply step_post_review].
  eapply reachable_step; [|apply step_post_project].
  eapply reachable_step; [|apply step_register].
  eapply reachable_step; [|apply step_register].
  apply reachable_empty.
Qed.

(** ** C1: one review per (project, reviewer) *)

Lemma filter_map_commute {A : Type} (f : A -> bool) (g : A -> A) (l : list A) :
  (forall x, f (g x) = f x) -> filter f (map g l) = map g (filter f l).
Proof.
  intros Hg. induction l as [|a l IH]; simpl; [reflexivity|].
  rewrite Hg. destruct (f a); simpl; now rewrite IH.
Qed.

Lemma find_filter_single {A : Type} (f : A -> bool) (l : list A) (x : A) :
  find f l = Some x -> (List.length (filter f l) <= 1)%nat -> filter f l = [x].
Proof.
  induction l as [|a l IH]; simpl; [discriminate|].
  destruct (f a) eqn:E.
  - intros H Hlen. injection H as <-. simpl in Hlen.
    destruct (filter f l); [reflexivity | simpl in Hlen; lia].
  - exact IH.
Qed.

Lemma find_map_commute {A : Type} (f : A -> bool) (g : A -> A) (l : list A) :
  (forall x, f (g x) = f x) -> find f (map g l) = option_map g (find f l).
Proof.
  intros Hg. induction l as [|a l IH]; simpl; [reflexivity|].
  rewrite Hg. now destruct (f a).
Qed.

Lemma find_app_some {A : Type} (f : A -> bool) (l l' : list A) (x : A) :
  find f l = Some x -> find f (l ++ l') = Some x.
Proof.
  induction l as [|a l IH]; simpl; [discriminate|].
  now destruct (f a).
Qed.

Lemma same_identity_refl (r : review) : same_identity r r.
Proof. unfold same_identity. auto. Qed.

Lemma same_identity_trans (a b c : review) :
  same_identity a b -> same_identity b c -> same_identity a c.
Proof. unfold same_identity. intuition congruence. Qed.

Lemma set_rating_comment_identity q c rid r :
  same_identity r (set_rating_comment q c rid r).
Proof.
  unfold set_rating_comment, same_identity.
  destruct (r_id r =? rid); simpl; auto.
Qed.

(** One accepted submission leaves exactly one row for the pair, with the
    submitted rating and [comment || null]; a row that was there keeps
    its identity. *)
Lemma submit_accepted (db : database) (uid pid : Z) (s : submission) (q : Q) :
  reviews_unique db -> has_project db pid = true -> has_user db uid = true ->
  s_rating s = Some q -> rating_rejected (Some q) = false ->
  exists r,
    pair_rows (submit uid pid db s) pid uid = [r]
    /\ r_rating r = q /\ r_comment r = or_null (s_comment s)
    /\ (forall ex, select_review db pid uid = Some ex -> same_identity ex r)
    /\ (select_review db pid uid = None -> r_created_at r = s_now s).
Proof.
  intros Hu Hp Husr Hs Hq. unfold submit, post_review. rewrite Hs, Hq.
  unfold select_project. pose proof Hp as Hp'. unfold has_project in Hp'.
  destruct (find (fun p => p_id p =? pid) (projects db)) eqn:F;
    [|apply find_none_existsb in F; congruence].
  pose proof (rating_accepted_check q Hq) as Hc.
  destruct (select_review db pid uid) as [ex|] eqn:Hsel.
  - unfold update_review. rewrite Hc. unfold pair_rows. simpl.
    rewrite filter_map_commute by (intros; apply set_rating_comment_pair).
    unfold select_review in Hsel.
    rewrite (find_filter_single _ _ ex Hsel (Hu pid uid)). simpl.
    eexists. split; [reflexivity|].
    unfold set_rating_comment. rewrite Z.eqb_refl. simpl.
    split; [reflexivity|]. split; [reflexivity|]. split; [|discriminate].
    intros ex' E. injection E as <-. unfold same_identity. simpl. auto.
  - unfold insert_review, pair_free. rewrite Hc, Hp, Husr.
    unfold select_review in Hsel. pose proof (find_none_existsb _ _ Hsel) as Hex.
    rewrite Hex. unfold pair_rows. simpl.
    rewrite filter_app. apply filter_nil_existsb in Hex. rewrite Hex. simpl.
    unfold review_of at 1. simpl. rewrite !Z.eqb_refl. simpl.
    eexists. split; [reflexivity|]. simpl.
    split; [reflexivity|]. split; [reflexivity|]. split; [discriminate|].
    reflexivity.
Qed.

(** Any submission, accepted or not, keeps the identity of a row that
    the pair already has. *)
Lemma submit_keeps_existing (db : database) (uid pid : Z) (s : submission)
    (ex : review) :
  select_review db pid uid = Some ex ->
  exists ex', select_review (submit uid pid db s) pid uid = Some ex'
              /\ same_identity ex ex'.
Proof.
  intros Hsel. unfold submit.
  destruct (post_review_reviews db (s_now s) uid pid (s_rating s) (s_comment s))
    as [E | q ex0 _ _ _ Hr | q _ _ Hnone Hr].
  - rewrite E. exists ex. split; [assumption | apply same_identity_refl].
  - unfold select_review in *. rewrite Hr.
    rewrite find_map_commute by (intros; apply set_rating_comment_pair).
    rewrite Hsel. simpl. eexists. split; [reflexivity|].
    apply set_rating_comment_identity.
  - congruence.
Qed.

Lemma submit_all_keeps_existing (uid pid : Z) (l : list submission) :
  forall (db : database) (ex : review),
  select_review db pid uid = Some ex ->
  exists ex', select_review (submit_all uid pid db l) pid uid = Some ex'
              /\ same_identity ex ex'.
Proof.
  induction l as [|s l IH]; intros db ex Hsel; simpl.
  - exists ex. split; [assumption | apply same_identity_refl].
  - destruct (submit_keeps_existing db uid pid s ex Hsel) as [ex1 [H1 I1]].
    destruct (IH _ ex1 H1) as [ex2 [H2 I2]].
    exists ex2. split; [assumption | eapply same_identity_trans; eassumption].
Qed.

Lemma submit_all_invariants (uid pid : Z) (l : list submission) :
  forall db : database,
  reviews_unique db -> has_project db pid = true -> has_user db uid = true ->
  let db' := submit_all uid pid db l in
  reviews_unique db' /\ has_project db' pid = true /\ has_user db' uid = true.
Proof.
  induction l as [|s l IH]; intros db Hu Hp Husr; simpl; [auto|].
  apply IH.
  - apply post_review_unique. exact Hu.
  - unfold submit, has_project.
    destruct (post_review_effect db (s_now s) uid pid (s_rating s) (s_comment s))
      as [_ [_ [E _]]]. rewrite E. exact Hp.
  - unfold submit.
    destruct (post_review_effect db (s_now s) uid pid (s_rating s) (s_comment s))
      as [E _]. rewrite (has_user_users _ _ _ E). exact Husr.
Qed.

Lemma submit_rejected (uid pid : Z) (db : database) (s : submission) :
  rating_rejected (s_rating s) = true -> submit uid pid db s = db.
Proof.
  unfold submit, post_review. intros H.
  destruct (s_rating s); [now rewrite H | reflexivity].
Qed.

Lemma submit_all_rejected (uid pid : Z) (l : list submission) :
  forall db : database,
  Forall (fun s => rating_rejected (s_rating s) = true) l ->
  submit_all uid pid db l = db.
Proof.
  induction l as [|s l IH]; intros db H; [reflexivity|].
  inversion H as [|? ? Hs Hl]; subst. simpl.
  rewrite (submit_rejected uid pid db s Hs). now apply IH.
Qed.

(** C1 (amended). In a reachable state, let a registered user submit any
    sequence of reviews for an existing project, of which [last] is the
    last one that passes the rating check (the ones before it are
    arbitrary, the ones after it are rejected). Afterwards the [reviews]
    table holds exactly one row for the pair; its rating is the rating
    of [last] and its comment is the comment of [last], an empty or
    absent comment being stored as NULL. If the pair had a row before
    the sequence, it is that row, with its id and creation time. *)
Theorem review_upsert_single_row (db : database) (uid pid : Z)
    (earlier : list submission) (last : submission) (q : Q)
    (rejected : list submission) :
  reachable db ->
  has_project db pid = true ->
  has_user db uid = true ->
  s_rating last = Some q ->
  rating_rejected (Some q) = false ->
  Forall (fun s => rating_rejected (s_rating s) = true) rejected ->
  exists r,
    pair_rows (submit_all uid pid db (earlier ++ [last] ++ rejected)) pid uid
    = [r]
    /\ r_rating r = q
    /\ r_comment r = or_null (s_comment last)
    /\ (forall ex, select_review db pid uid = Some ex -> same_identity ex r).
Proof.
  intros Hreach Hp Husr Hs Hq Hrej.
  destruct (reachable_well_formed db Hreach) as [_ [_ [_ [Hu _]]]].
  unfold submit_all. rewrite !fold_left_app. simpl.
  fold (submit_all uid pid db earlier).
  fold (submit_all uid pid (submit uid pid (submit_all uid pid db earlier) last)
                   rejected).
  rewrite (submit_all_rejected uid pid rejected _ Hrej).
  destruct (submit_all_invariants uid pid earlier db Hu Hp Husr)
    as [Hu1 [Hp1 Husr1]].
  destruct (submit_accepted _ uid pid last q Hu1 Hp1 Husr1 Hs Hq)
    as [r [Hrows [Hrat [Hcom [Hid _]]]]].
  exists r. repeat (split; [assumption|]).
  intros ex Hex.
  destruct (submit_all_keeps_existing uid pid earlier db ex Hex)
    as [ex1 [Hsel1 I1]].
  eapply same_identity_trans; [exact I1 | now apply Hid].
Qed.

(** bob, who gave a 4, submits an out-of-range 0, then 2 with a comment,
    then an out-of-range 9. *)
Lemma review_upsert_single_row_witness :
  exists r,
    pair_rows (submit_all 2 1 demo_db4
                 ([mkSubmission 500 (Some 0%Q) None]
                  ++ [mkSubmission 600 (Some 2%Q) (Some "ok")]
                  ++ [mkSubmission 700 (Some 9%Q) (Some "!")])) 1 2 = [r]
    /\ r_rating r = 2%Q
    /\ r_comment r = or_null (Some "ok")
    /\ (forall ex, select_review demo_db4 1 2 = Some ex -> same_identity ex r).
Proof.
  apply (review_upsert_single_row demo_db4 2 1
           [mkSubmission 500 (Some 0%Q) None]
           (mkSubmission 600 (Some 2%Q) (Some "ok")) 2%Q
           [mkSubmission 700 (Some 9%Q) (Some "!")]).
  - exact demo_db4_reachable.
  - reflexivity.
  - reflexivity.
  - reflexivity.
  - reflexivity.
  - constructor; [reflexivity | constructor].
Defined.

(** C1 as stated fails on the comment: bob submits a 3 with the empty
    comment for project 1; the row that results has rating 3 and a NULL
    comment, not the submitted empty string. *)
Lemma review_comment_empty_becomes_null :
  reachable demo_db3 /\ has_project demo_db3 1 = true
  /\ has_user demo_db3 2 = true
  /\ ~ (exists r,
          pair_rows (submit_all 2 1 demo_db3 [mkSubmission 400 (Some 3%Q) (Some "")])
                    1 2 = [r]
          /\ r_rating r = 3%Q /\ r_comment r = Some "").
Proof.
  split; [|split; [reflexivity|split; [reflexivity|]]].
  - eapply reachable_step; [|apply step_post_project].
    eapply reachable_step; [|apply step_register].
    eapply reachable_step; [|apply step_register].
    apply reachable_empty.
  - intros [r [Hrows [_ Hc]]]. vm_compute in Hrows.
    injection Hrows as <-. simpl in Hc. discriminate.
Qed.

(** ** C2: the aggregates of the list and get queries *)

Lemma insert_desc_in (p x : project) (l : list project) :
  In x (insert_desc p l) <-> x = p \/ In x l.
Proof.
  induction l as [|a l IH]; simpl; [intuition|].
  destruct (p_created_at a <? p_created_at p); simpl; [intuition|].
  rewrite IH. intuition.
Qed.

Lemma order_by_created_desc_in (x : project) (l : list project) :
  In x (order_by_created_desc l) <-> In x l.
Proof.
  induction l as [|a l IH]; simpl; [tauto|].
  rewrite insert_desc_in, IH. intuition.
Qed.



Lemma left_join_nonempty {A : Type} (l : list A) : left_join l <> [].
Proof. destruct l; discriminate. Qed.

Section AggregateFacts.

Variable arbitrary_row : joined_row -> list joined_row -> joined_row.
Hypothesis arbitrary_row_in :
  forall j js, In (arbitrary_row j js) (j :: js).


End AggregateFacts.

Lemma filter_head_in {A : Type} (f : A -> bool) (l : list A) (x : A) :
  In x l -> f x = true ->
  exists y rest, filter f l = y :: rest /\ In y l /\ f y = true.
Proof.
  intros Hin Hf.
  destruct (filter f l) as [|y rest] eqn:E.
  - assert (In x (filter f l)) as H by (apply filter_In; auto).
    rewrite E in H. contradiction.
  - exists y, rest. split; [reflexivity|].
    assert (In y (filter f l)) as H by (rewrite E; now left).
    now apply filter_In in H.
Qed.




(** ** C9: the attachment reference that is surfaced *)

Lemma group_of_member (db : database) (p : project) (b : joined_row) :
  In b (group_of db p) ->
  j_project b = p
  /\ In (j_file b) (left_join (files_of db (p_id p))).
Proof.
  unfold group_of. intros H.
  apply in_flat_map in H. destruct H as [u [_ H]].
  apply in_flat_map in H. destruct H as [f [Hf H]].
  apply in_map_iff in H. destruct H as [r [<- _]]. simpl. auto.
Qed.

Lemma left_join_some {A : Type} (l : list A) (o : option A) :
  l <> [] -> In o (left_join l) -> exists a, o = Some a /\ In a l.
Proof.
  destruct l as [|x l]; [congruence|]. intros _ H.
  unfold left_join in H. apply in_map_iff in H.
  destruct H as [a [<- Ha]]. eauto.
Qed.

Lemma group_of_nonempty (db : database) (p : project) :
  has_user db (p_author_id p) = true -> group_of db p <> [].
Proof.
  unfold group_of, authors_of, has_user. intros Hau.
  destruct (filter (fun u => u_id u =? p_author_id p) (users db)) as [|u us] eqn:F.
  - apply filter_nil_existsb in F. congruence.
  - simpl.
    destruct (left_join (files_of db (p_id p))) as [|f fs] eqn:Ef;
      [now apply left_join_nonempty in Ef|].
    simpl.
    destruct (left_join (reviews_of db (p_id p))) as [|r rs] eqn:Er;
      [now apply left_join_nonempty in Er|].
    simpl. discriminate.
Qed.

Section Surfaced.

Variable arbitrary_row : joined_row -> list joined_row -> joined_row.
Hypothesis arbitrary_row_in :
  forall j js, In (arbitrary_row j js) (j :: js).

Lemma aggregate_id (db : database) (p : project) (v : project_view) :
  aggregate arbitrary_row (group_of db p) = Some v -> v_id v = p_id p.
Proof.
  intros Hv. unfold aggregate in Hv.
  destruct (group_of db p) as [|j js] eqn:G; [discriminate|].
  injection Hv as <-. cbn [v_id].
  pose proof (arbitrary_row_in j js) as Hb. rewrite <- G in Hb.
  destruct (group_of_member db p _ Hb) as [Hp _]. now rewrite Hp.
Qed.

(** The output row of a project with attachments names one of them. *)
Lemma aggregate_file (db : database) (p : project) (v : project_view) :
  aggregate arbitrary_row (group_of db p) = Some v ->
  files_of db (p_id p) <> [] ->
  v_id v = p_id p
  /\ exists f, In f (files_of db (p_id p))
               /\ v_file_path v = Some (f_file_path f).
Proof.
  intros Hv Hne. unfold aggregate in Hv.
  destruct (group_of db p) as [|j js] eqn:G; [discriminate|].
  injection Hv as <-. cbn [v_id v_file_path].
  pose proof (arbitrary_row_in j js) as Hb. rewrite <- G in Hb.
  destruct (group_of_member db p _ Hb) as [Hp Hf].
  destruct (left_join_some _ _ Hne Hf) as [f [Ef Hin]].
  rewrite Hp, Ef. split; [reflexivity|]. exists f. auto.
Qed.

Lemma aggregate_defined (db : database) (p : project) :
  has_user db (p_author_id p) = true ->
  exists v, aggregate arbitrary_row (group_of db p) = Some v.
Proof.
  intros Hau. pose proof (group_of_nonempty db p Hau) as Hne.
  unfold aggregate. destruct (group_of db p); [congruence | eauto].
Qed.

End Surfaced.

(** C9 (amended). Let every project have its author row, and let project
    [p] have more than one attachment row. Whichever row of the group
    the bare column is taken from, the get of [p] returns one object
    whose file_path is the path of one of the attachment rows of [p];
    the list has an entry for [p] when [p] passes the filters, and each
    of its entries for [p] names one of the attachment rows of [p]. *)
Theorem attachment_surfaced
    (arbitrary_row : joined_row -> list joined_row -> joined_row)
    (db : database) (section group : option string) (p : project) :
  (forall j js, In (arbitrary_row j js) (j :: js)) ->
  projects_ok db ->
  In p (projects db) ->
  (1 < List.length (files_of db (p_id p)))%nat ->
  (exists v f,
     get_project arbitrary_row db (p_id p) = inr v
     /\ v_id v = p_id p
     /\ In f (files_of db (p_id p))
     /\ v_file_path v = Some (f_file_path f))
  /\ (where_clause section group p = true ->
      exists v, In v (get_projects arbitrary_row db section group)
                /\ v_id v = p_id p)
  /\ (forall v, In v (get_projects arbitrary_row db section group) ->
        v_id v = p_id p ->
        exists f, In f (files_of db (p_id p))
                  /\ v_file_path v = Some (f_file_path f)).
Proof.
  intros Hrow Hok Hin Hlen.
  assert (Hne : files_of db (p_id p) <> []).
  { intros E. rewrite E in Hlen. simpl in Hlen. lia. }
  split; [|split].
  - unfold get_project.
    destruct (filter_head_in (fun x => p_id x =? p_id p) (projects db) p Hin
                (Z.eqb_refl _)) as [p' [rest [E [Hin' Hid]]]].
    apply Z.eqb_eq in Hid. rewrite E. simpl.
    destruct (Hok p' Hin') as [_ Hau].
    destruct (aggregate_defined arbitrary_row db p' Hau) as [v Hv].
    rewrite Hv. simpl. rewrite <- Hid in Hne.
    destruct (aggregate_file arbitrary_row Hrow db p' v Hv Hne)
      as [Hvid [f [Hf Hpath]]].
    rewrite Hid in Hvid, Hf. exists v, f. auto.
  - intros Hw. destruct (Hok p Hin) as [_ Hau].
    destruct (aggregate_defined arbitrary_row db p Hau) as [v Hv].
    destruct (aggregate_file arbitrary_row Hrow db p v Hv Hne) as [Hvid _].
    exists v. split; [|exact Hvid]. unfold get_projects.
    apply in_flat_map. exists p. split.
    + apply order_by_created_desc_in. apply filter_In. auto.
    + rewrite Hv. now left.
  - intros v Hv Hvid. unfold get_projects in Hv. apply in_flat_map in Hv.
    destruct Hv as [p' [_ Hv]].
    destruct (aggregate arbitrary_row (group_of db p')) as [v'|] eqn:A;
      [|contradiction].
    destruct Hv as [<-|[]].
    pose proof (aggregate_id arbitrary_row Hrow db p' v' A) as Hid.
    assert (E : p_id p' = p_id p) by congruence.
    rewrite <- E in Hne.
    destruct (aggregate_file arbitrary_row Hrow db p' v' A Hne) as [_ [f [Hf Hp]]].
    rewrite E in Hf. eauto.
Qed.

Lemma last_row_in (j : joined_row) (js : list joined_row) :
  In (last_row j js) (j :: js).
Proof.
  unfold last_row. induction js as [|a l IH]; [now left|].
  destruct l as [|b l]; [right; now left|].
  change (last (a :: b :: l) j) with (last (b :: l) j).
  destruct IH as [H|H]; [now left | right; now right].
Qed.

(** Project 1 with its two attachment rows, bare columns from the last
    row of the group. *)
Lemma attachment_surfaced_witness :
  (exists v f,
     get_project last_row two_files_db 1 = inr v
     /\ v_id v = 1
     /\ In f (files_of two_files_db 1)
     /\ v_file_path v = Some (f_file_path f))
  /\ (where_clause None None
        (mkProject 1 "Thermostat PID" "A PID controller for lab thermostat"
                   1 None None None None 300) = true ->
      exists v, In v (get_projects last_row two_files_db None None)
                /\ v_id v = 1)
  /\ (forall v, In v (get_projects last_row two_files_db None None) ->
        v_id v = 1 ->
        exists f, In f (files_of two_files_db 1)
                  /\ v_file_path v = Some (f_file_path f)).
Proof.
  apply (attachment_surfaced last_row two_files_db None None
           (mkProject 1 "Thermostat PID" "A PID controller for lab thermostat"
                      1 None None None None 300)).
  - exact last_row_in.
  - intros p [<-|[]]. split; [vm_compute; discriminate | reflexivity].
  - now left.
  - vm_compute. lia.
Defined.

(** C9 as stated fails: with the bare column taken from the first row of
    the group, which the query allows, the get of project 1 surfaces
    the older of its two attachment rows, not the latest one. *)
Lemma attachment_not_latest :
  (forall j js, In (first_row j js) (j :: js))
  /\ (1 < List.length (files_of two_files_db 1))%nat
  /\ latest_file (files_of two_files_db 1)
     = Some (mkFile 2 1 "/uploads/project-1-v2.pdf" 500)
  /\ exists v,
       get_project first_row two_files_db 1 = inr v
       /\ v_file_path v = Some "/uploads/project-1.pdf"
       /\ v_file_path v
          <> option_map f_file_path (latest_file (files_of two_files_db 1)).
Proof.
  split; [intros j js; now left|].
  split; [vm_compute; lia|]. split; [reflexivity|].
  eexists. split; [reflexivity|]. split; [reflexivity|].
  vm_compute. discriminate.
Qed.

(** The same get with the bare column taken from the last row surfaces
    the other attachment row: the outcome is the engine's choice. *)
Lemma attachment_depends_on_row :
  exists v,
    get_project last_row two_files_db 1 = inr v
    /\ v_file_path v = Some "/uploads/project-1-v2.pdf".
Proof.
  eexists. split; reflexivity.
Qed.

(** With two attachment rows the join repeats every review once per
    attachment, and [COUNT(reviews.id)] counts the repetitions: project 1
    has one review and the get reports two. *)
Lemma review_count_fan_out :
  List.length (reviews_of two_files_db 1) = 1%nat
  /\ exists v, get_project first_row two_files_db 1 = inr v
               /\ v_review_count v = 2.
Proof.
  split; [reflexivity|]. eexists. split; reflexivity.
Qed.

(** ** C5: validation and conflict at registration *)

Lemma truthy_length (x : option string) :
  (1 <= String.length (str x))%nat -> truthy x = true.
Proof.
  destruct x as [[|c s]|]; simpl; intros H; try lia; reflexivity.
Qed.

Lemma emailRegex_nonempty (x : option string) :
  regex_test emailRegex (str x) = true -> truthy x = true.
Proof.
  destruct x as [[|c s]|]; simpl; intros H; try discriminate; reflexivity.
Qed.

Lemma select_user_by_found (db : database) (email username : string) (u : user) :
  In u (users db) ->
  u_username u = username \/ u_email u = email ->
  exists u', select_user_by db email username = Some u'.
Proof.
  intros Hin Heq. unfold select_user_by.
  destruct (find _ (users db)) as [u'|] eqn:F; [eauto|].
  pose proof (find_none _ _ F u Hin) as Hf. simpl in Hf.
  apply orb_false_elim in Hf. destruct Hf as [He Hn].
  destruct Heq as [<-|<-]; [rewrite String.eqb_refl in Hn
                           | rewrite String.eqb_refl in He]; discriminate.
Qed.

Section Register.

Variable bcrypt_hash : string -> string.
Variable jwt_sign : identity -> Z -> string.

Lemma register_invalid db now username email password :
  (String.length (str username) < 3)%nat
  \/ (String.length (str password) < 6)%nat
  \/ regex_test emailRegex (str email) = false ->
  exists msg,
    post_register bcrypt_hash jwt_sign db now username email password
    = (auth_error 400 msg, db).
Proof.
  intros H. unfold post_register.
  destruct (negb (truthy username) || negb (truthy email)
            || negb (truthy password)); [eauto|].
  destruct (Z.of_nat (String.length (str username)) <? 3) eqn:Eu; [eauto|].
  destruct (Z.of_nat (String.length (str password)) <? 6) eqn:Ep; [eauto|].
  destruct (regex_test emailRegex (str email)) eqn:Ee; simpl; [|eauto].
  apply Z.ltb_ge in Eu, Ep. destruct H as [H|[H|H]]; [lia | lia | discriminate].
Qed.

Lemma register_valid_reaches_lookup db now username email password :
  (3 <= String.length (str username))%nat ->
  (6 <= String.length (str password))%nat ->
  regex_test emailRegex (str email) = true ->
  post_register bcrypt_hash jwt_sign db now username email password =
  match select_user_by db (str email) (str username) with
  | Some _ => (auth_error 409 "Username or email already exists", db)
  | None =>
    match insert_user db now (str username) (str email)
                      (bcrypt_hash (str password)) with
    | None => (auth_error 500 "Registration failed. Please try again.", db)
    | Some (db', uid) =>
      (mkAuth 201 "Registration successful"
         (Some (jwt_sign (mkIdentity uid (str username) (str email)) now))
         (Some (mkIdentity uid (str username) (str email))), db')
    end
  end.
Proof.
  intros Hu Hp He. unfold post_register.
  rewrite (truthy_length username) by lia.
  rewrite (truthy_length password) by lia.
  rewrite (emailRegex_nonempty email He). simpl.
  replace (Z.of_nat (String.length (str username)) <? 3) with false
    by (symmetry; apply Z.ltb_ge; lia).
  replace (Z.of_nat (String.length (str password)) <? 6) with false
    by (symmetry; apply Z.ltb_ge; lia).
  rewrite He. reflexivity.
Qed.

Lemma register_conflict db now username email password :
  (3 <= String.length (str username))%nat ->
  (6 <= String.length (str password))%nat ->
  regex_test emailRegex (str email) = true ->
  (exists u, In u (users db)
             /\ (u_username u = str username \/ u_email u = str email)) ->
  post_register bcrypt_hash jwt_sign db now username email password
  = (auth_error 409 "Username or email already exists", db).
Proof.
  intros Hu Hp He [u [Hin Heq]].
  rewrite register_valid_reaches_lookup by assumption.
  destruct (select_user_by_found db (str email) (str username) u Hin Heq)
    as [u' ->]. reflexivity.
Qed.

Lemma register_success_user db now username email password r db' :
  post_register bcrypt_hash jwt_sign db now username email password = (r, db') ->
  a_status r = 201 ->
  exists u, In u (users db')
            /\ u_username u = str username /\ u_email u = str email.
Proof.
  unfold post_register.
  repeat break_match; intros H; injection H as <- <-; simpl;
    intros Hs; try discriminate.
  match goal with
  | H : insert_user _ _ _ _ _ = Some _ |- _ =>
    unfold insert_user in H; destruct (existsb _ _) in H;
    [discriminate | injection H as <- <-]
  end.
  eexists. split; [simpl; apply in_app_iff; right; now left|].
  split; reflexivity.
Qed.

End Register.

(** C5 (amended). A registration whose username has fewer than 3
    characters, whose password has fewer than 6, or whose email does not
    match the pattern is answered 400 and writes nothing, whether or not
    the username or email is taken. A registration that passes these
    checks and whose username or email is that of an existing user is
    answered 409 and writes nothing; in particular, after a successful
    registration, any registration that passes the checks and repeats
    its username or its email is answered 409. *)
Theorem register_validation_then_conflict
    (bcrypt_hash : string -> string) (jwt_sign : identity -> Z -> string)
    (db : database) (now : Z) (username email password : option string) :
  ((String.length (str username) < 3)%nat
   \/ (String.length (str password) < 6)%nat
   \/ regex_test emailRegex (str email) = false ->
   exists msg,
     post_register bcrypt_hash jwt_sign db now username email password
     = (auth_error 400 msg, db))
  /\ ((3 <= String.length (str username))%nat ->
      (6 <= String.length (str password))%nat ->
      regex_test emailRegex (str email) = true ->
      ((exists u, In u (users db)
                  /\ (u_username u = str username \/ u_email u = str email)) ->
       post_register bcrypt_hash jwt_sign db now username email password
       = (auth_error 409 "Username or email already exists", db))
      /\ forall r db',
           post_register bcrypt_hash jwt_sign db now username email password
           = (r, db') ->
           a_status r = 201 ->
           forall now' username' email' password',
             (3 <= String.length (str username'))%nat ->
             (6 <= String.length (str password'))%nat ->
             regex_test emailRegex (str email') = true ->
             str username' = str username \/ str email' = str email ->
             post_register bcrypt_hash jwt_sign db' now'
                           username' email' password'
             = (auth_error 409 "Username or email already exists", db')).
Proof.
  split; [apply register_invalid|].
  intros Hu Hp He. split; [now apply register_conflict|].
  intros r db' Hreg H201 now' username' email' password' Hu' Hp' He' Hsame.
  apply register_conflict; try assumption.
  destruct (register_success_user _ _ _ _ _ _ _ _ _ Hreg H201)
    as [u [Hin [Hn Hm]]].
  exists u. split; [assumption|].
  destruct Hsame as [E|E]; [left | right]; congruence.
Qed.

(** A two-letter username is refused; alice registered twice is a
    conflict, also with another email and password. *)
Lemma register_validation_then_conflict_witness :
  (exists msg,
     post_register demo_hash demo_sign demo_db1 150
                   (Some "al") (Some "al@usthb.dz") (Some "secret9")
     = (auth_error 400 msg, demo_db1))
  /\ post_register demo_hash demo_sign demo_db1 150
                   (Some "alice") (Some "other@usthb.dz") (Some "secret9")
     = (auth_error 409 "Username or email already exists", demo_db1).
Proof.
  split.
  - apply (register_validation_then_conflict demo_hash demo_sign demo_db1 150
             (Some "al") (Some "al@usthb.dz") (Some "secret9")).
    left. vm_compute. lia.
  - refine (proj2 (proj2 (register_validation_then_conflict
                      demo_hash demo_sign empty_db 100
                      (Some "alice") (Some "alice@usthb.dz") (Some "secret1"))
                    _ _ _)
                  _ demo_db1 eq_refl eq_refl 150
                  (Some "alice") (Some "other@usthb.dz") (Some "secret9")
                  _ _ _ _).
    + vm_compute. lia.
    + vm_compute. lia.
    + vm_compute. reflexivity.
    + vm_compute. lia.
    + vm_compute. lia.
    + vm_compute. reflexivity.
    + left. reflexivity.
Defined.

(** C5 as stated fails: alice is registered, and a registration that
    repeats her username with a five-letter password is answered 400,
    not 409. *)
Lemma register_conflict_after_validation :
  (exists u, In u (users demo_db1) /\ u_username u = "alice")
  /\ post_register demo_hash demo_sign demo_db1 150
                   (Some "alice") (Some "other@usthb.dz") (Some "short")
     = (auth_error 400 "Password must be at least 6 characters", demo_db1)
  /\ a_status (fst (post_register demo_hash demo_sign demo_db1 150
                      (Some "alice") (Some "other@usthb.dz") (Some "short")))
     <> 409.
Proof.
  split; [|split].
  - eexists. split; [left; reflexivity | reflexivity].
  - vm_compute. reflexivity.
  - vm_compute. discriminate.
Qed.

(** ** C6: the status of a failed token check *)

(** C6 (amended). On [GET /auth/me] a request without an Authorization
    header, or whose header carries no second word, is answered 401; a
    request whose token [jwt.verify] rejects (wrong key, malformed or
    expired) is answered 403. *)
Theorem get_me_token_failures
    (jwt_verify : string -> Z -> option identity)
    (db : database) (now : Z) (authHeader : option string) :
  (authHeader = None ->
   get_me jwt_verify db now authHeader = inl (mkResp 401 "No token provided"))
  /\ (truthy (bearer_token authHeader) = false ->
      get_me jwt_verify db now authHeader = inl (mkResp 401 "No token provided"))
  /\ (truthy (bearer_token authHeader) = true ->
      jwt_verify (str (bearer_token authHeader)) now = None ->
      get_me jwt_verify db now authHeader = inl (mkResp 403 "Invalid token")).
Proof.
  unfold get_me. split; [|split].
  - intros ->. reflexivity.
  - intros ->. reflexivity.
  - intros -> ->. reflexivity.
Qed.

(** No header, a header without a token, and a forged token. *)
Lemma get_me_token_failures_witness :
  get_me demo_verify demo_db1 1000 None = inl (mkResp 401 "No token provided")
  /\ get_me demo_verify demo_db1 1000 (Some "Bearer")
     = inl (mkResp 401 "No token provided")
  /\ get_me demo_verify demo_db1 1000 (Some "Bearer forged")
     = inl (mkResp 403 "Invalid token").
Proof.
  split; [|split].
  - apply (get_me_token_failures demo_verify demo_db1 1000 None). reflexivity.
  - apply (get_me_token_failures demo_verify demo_db1 1000 (Some "Bearer")).
    reflexivity.
  - apply (get_me_token_failures demo_verify demo_db1 1000 (Some "Bearer forged"));
      reflexivity.
Defined.

(** C6 as stated fails: a token that the verification rejects is
    answered 403, not 401; the accepted token of alice is answered with
    her row. *)
Lemma get_me_invalid_token_is_403 :
  demo_verify "forged" 1000 = None
  /\ (exists r, get_me demo_verify demo_db1 1000 (Some "Bearer forged") = inl r
                /\ status r = 403 /\ status r <> 401)
  /\ exists u, get_me demo_verify demo_db1 1000 (Some "Bearer token-of-alice")
               = inr u.
Proof.
  split; [reflexivity|]. split.
  - eexists. split; [reflexivity|]. split; [reflexivity | discriminate].
  - eexists. vm_compute. reflexivity.
Qed.

(** ** C7: the two causes of a failed login *)



(** With the right password the same identifier logs in, by username or
    by email. *)
Lemma login_by_username_or_email :
  a_status (post_login demo_compare demo_sign demo_db2 800
                       (Some "bob") (Some "secret2")) = 200
  /\ a_status (post_login demo_compare demo_sign demo_db2 800
                          (Some "bob@usthb.dz") (Some "secret2")) = 200.
Proof.
  split; vm_compute; reflexivity.
Qed.
